(** * BCE-Auth-V1 request signing (src/authorization.ts)

    A shallow embedding of the signer of the bce-sdk: the percent-encoding
    [normalize], the two canonicalizers, the HMAC chain of [createContext]
    and the token assembled by [authorize], together with the parts of the
    JavaScript runtime the source calls (string methods, array sort and
    join, [encodeURIComponent], the HMAC-SHA256 of node:crypto). *)

From Stdlib Require Import List NArith ZArith Bool Lia String Ascii.
From Stdlib Require Import Permutation Sorted Orders Mergesort.
From Stdlib Require Import DecimalString.
Import ListNotations.

Local Open Scope N_scope.

(** ** JavaScript strings

    A JavaScript string is a sequence of 16-bit UTF-16 code units.  Every
    string method the source uses ([toLowerCase], [trim], [startsWith],
    comparison in [sort]) works on code units, so that is the model. *)

Definition codeunit := N.
Definition jsstring := list codeunit.

(** A string literal of the source, all of whose characters are ASCII. *)
Definition js (s : string) : jsstring :=
  List.map N_of_ascii (list_ascii_of_string s).

Definition str_eqb (a b : jsstring) : bool :=
  if list_eq_dec N.eq_dec a b then true else false.

(** Concatenation, [a + b] and the template literals of the source, is
    the [++] of lists. *)

(** ** Exceptions

    A call completes normally with a value or throws.  The signer itself
    raises nothing and catches nothing; the exceptions that can cross it
    are the [URIError] that [encodeURIComponent] throws on a lone
    surrogate and an [Error] of the HMAC of the runtime, told by its
    message. *)

Inductive exn :=
| URIError
| Error (message : jsstring).

Inductive completion (A : Type) : Type :=
| Ok (a : A)
| Throw (e : exn).
Arguments Ok {A} a.
Arguments Throw {A} e.

Definition bind {A B} (r : completion A) (k : A -> completion B) : completion B :=
  match r with
  | Ok a => k a
  | Throw e => Throw e
  end.

Notation "'let*' x ':=' r 'in' k" := (bind r (fun x => k))
  (at level 10, x pattern, r at level 100, k at level 200).

Definition returns {A} (r : completion A) : bool :=
  match r with Ok _ => true | Throw _ => false end.

(** ** Array.prototype.join *)

Fixpoint join (sep : jsstring) (l : list jsstring) : jsstring :=
  match l with
  | [] => []
  | [x] => x
  | x :: rest => x ++ sep ++ join sep rest
  end.

(** ** Array.prototype.sort without a comparator

    The elements are strings and are compared code unit by code unit. *)

Fixpoint str_leb (a b : jsstring) : bool :=
  match a, b with
  | [], _ => true
  | _ :: _, [] => false
  | x :: a', y :: b' =>
      if x <? y then true
      else if y <? x then false
      else str_leb a' b'
  end.

Module StrOrder <: TotalLeBool.
Definition t := jsstring.
Definition leb := str_leb.
Lemma leb_total : forall a b, leb a b = true \/ leb b a = true.
Proof.
  unfold leb. induction a as [|x a IH]; intros [|y b]; simpl; auto.
  destruct (x <? y) eqn:Hxy; auto.
  destruct (y <? x) eqn:Hyx; auto.
Qed.
End StrOrder.

Module StrSort := Sort StrOrder.

Definition sort (l : list jsstring) : list jsstring := StrSort.sort l.

(** ** String.prototype.startsWith and Array.prototype.includes *)

Fixpoint startsWith (s p : jsstring) {struct p} : bool :=
  match p, s with
  | [], _ => true
  | _ :: _, [] => false
  | y :: p', x :: s' => (x =? y) && startsWith s' p'
  end.

Definition includes (l : list jsstring) (x : jsstring) : bool :=
  existsb (str_eqb x) l.

(** ** String.prototype.trim

    White space and line terminators of ECMAScript: TAB, LF, VT, FF, CR,
    SP, NBSP, U+1680, U+2000..U+200A, U+2028, U+2029, U+202F, U+205F,
    U+3000 and the byte order mark U+FEFF. *)

Definition isWhiteSpace (c : codeunit) : bool :=
  ((9 <=? c) && (c <=? 13)) || (c =? 32) || (c =? 160) || (c =? 5760)
  || ((8192 <=? c) && (c <=? 8202)) || (c =? 8232) || (c =? 8233)
  || (c =? 8239) || (c =? 8287) || (c =? 12288) || (c =? 65279).

Fixpoint trimStart (s : jsstring) : jsstring :=
  match s with
  | [] => []
  | c :: t => if isWhiteSpace c then trimStart t else s
  end.

Definition trimEnd (s : jsstring) : jsstring := rev (trimStart (rev s)).

Definition trim (s : jsstring) : jsstring := trimEnd (trimStart s).

(** ** Numbers

    A JavaScript number is a double.  The signer does two things with
    [expireInSeconds]: it tests it for truth and it prints it.  An integer
    up to [MAX_SAFE_INTEGER] in magnitude is held exactly by a double and
    prints as its decimal digits, with a leading minus sign when negative;
    both zeros are [Integer 0].  [NaN] is the one other falsy number.  Any
    other number (a fraction, an integer beyond the safe range, an
    infinity) is truthy, and [Printed] holds the text Number::toString
    gives for it, which is not computed here. *)

Definition MAX_SAFE_INTEGER : Z := 9007199254740991.

Inductive jsnumber : Type :=
| Integer (n : Z) (safe : (Z.abs n <=? MAX_SAFE_INTEGER)%Z = true)
| NaN
| Printed (text : jsstring).

Definition toBoolean (x : jsnumber) : bool :=
  match x with
  | Integer n _ => negb (n =? 0)%Z
  | NaN => false
  | Printed _ => true
  end.

Definition number_toString (x : jsnumber) : jsstring :=
  match x with
  | Integer n _ => js (NilZero.string_of_int (Z.to_int n))
  | NaN => js "NaN"
  | Printed text => text
  end.

(** ** UTF-8 *)

Definition isLeadSurrogate (c : codeunit) : bool := (55296 <=? c) && (c <=? 56319).
Definition isTrailSurrogate (c : codeunit) : bool := (56320 <=? c) && (c <=? 57343).

Definition surrogatePair (hi lo : codeunit) : N :=
  65536 + (hi - 55296) * 1024 + (lo - 56320).

(** The octets of one code point. *)
Definition utf8 (cp : N) : list N :=
  if cp <? 128 then [cp]
  else if cp <? 2048 then [192 + cp / 64; 128 + cp mod 64]
  else if cp <? 65536 then
    [224 + cp / 4096; 128 + (cp / 64) mod 64; 128 + cp mod 64]
  else
    [240 + cp / 262144; 128 + (cp / 4096) mod 64;
     128 + (cp / 64) mod 64; 128 + cp mod 64].

(** ** encodeURIComponent

    The Encode operation of ECMAScript with the unreserved set
    A-Z a-z 0-9 - _ . ! ~ * ' ( ): a code unit of the set is copied, any
    other code point is written as the %XX of each of its UTF-8 octets, in
    upper-case hexadecimal; a lone surrogate throws URIError. *)

Definition isAlnum (c : codeunit) : bool :=
  ((48 <=? c) && (c <=? 57)) || ((65 <=? c) && (c <=? 90))
  || ((97 <=? c) && (c <=? 122)).

(** - _ . ! ~ * ' ( ) *)
Definition isUriMark (c : codeunit) : bool :=
  (c =? 45) || (c =? 95) || (c =? 46) || (c =? 33) || (c =? 126)
  || (c =? 42) || (c =? 39) || (c =? 40) || (c =? 41).

Definition uriUnescaped (c : codeunit) : bool := isAlnum c || isUriMark c.

Definition hexDigitUpper (d : N) : codeunit :=
  if d <? 10 then 48 + d else 55 + d.

Definition percent (octet : N) : jsstring :=
  [37; hexDigitUpper (octet / 16); hexDigitUpper (octet mod 16)].

Definition percentAll (octets : list N) : jsstring := flat_map percent octets.

Fixpoint encodeURIComponent (s : jsstring) : completion jsstring :=
  match s with
  | [] => Ok []
  | c :: t =>
      if uriUnescaped c then
        let* r := encodeURIComponent t in Ok (c :: r)
      else if isLeadSurrogate c then
        match t with
        | d :: t' =>
            if isTrailSurrogate d then
              let* r := encodeURIComponent t' in
              Ok (percentAll (utf8 (surrogatePair c d)) ++ r)
            else Throw URIError
        | [] => Throw URIError
        end
      else if isTrailSurrogate c then Throw URIError
      else
        let* r := encodeURIComponent t in Ok (percentAll (utf8 c) ++ r)
  end.

(** ** SHA-256 (FIPS 180-4) on 32-bit words *)

Definition add32 (x y : N) : N := (x + y) mod 4294967296.

Definition rotr (n x : N) : N :=
  N.lor (N.shiftr x n) (N.shiftl x (32 - n) mod 4294967296).

Definition Ch (x y z : N) : N :=
  N.lxor (N.land x y) (N.land (N.lxor x 4294967295) z).
Definition Maj (x y z : N) : N :=
  N.lxor (N.lxor (N.land x y) (N.land x z)) (N.land y z).
Definition bigSigma0 (x : N) : N := N.lxor (N.lxor (rotr 2 x) (rotr 13 x)) (rotr 22 x).
Definition bigSigma1 (x : N) : N := N.lxor (N.lxor (rotr 6 x) (rotr 11 x)) (rotr 25 x).
Definition smallSigma0 (x : N) : N := N.lxor (N.lxor (rotr 7 x) (rotr 18 x)) (N.shiftr x 3).
Definition smallSigma1 (x : N) : N := N.lxor (N.lxor (rotr 17 x) (rotr 19 x)) (N.shiftr x 10).

(** The round constants are the first 32 bits of the fractional parts of
    the cube roots of the first 64 primes, the initial hash value those of
    the square roots of the first 8. *)

Fixpoint rootBits (k : N) (n : nat) (x r : N) : N :=
  match n with
  | O => r
  | S n' =>
      let c := r + 2 ^ N.of_nat n' in
      rootBits k n' x (if c ^ k <=? x then c else r)
  end.

Definition fracRoot (k p : N) : N :=
  rootBits k 40 (p * 2 ^ (32 * k)) 0 mod 4294967296.

Definition isPrime (p : N) : bool :=
  forallb (fun d => negb (p mod d =? 0))
          (List.map N.of_nat (seq 2 (N.to_nat p - 2))).

Definition primes64 : list N :=
  Eval vm_compute in filter isPrime (List.map N.of_nat (seq 2 310)).

Definition K256 : list N := Eval vm_compute in List.map (fracRoot 3) primes64.

Definition H256 : list N :=
  Eval vm_compute in List.map (fracRoot 2) (firstn 8 primes64).

(** The message schedule: [win] holds the sixteen words before the one
    being computed, oldest first. *)
Fixpoint schedule (n : nat) (win : list N) : list N :=
  match n, win with
  | S n', w16 :: rest =>
      let wt := add32 (add32 (smallSigma1 (nth 13 rest 0)) (nth 8 rest 0))
                      (add32 (smallSigma0 (nth 0 rest 0)) w16) in
      wt :: schedule n' (rest ++ [wt])
  | _, _ => []
  end.

Record sha_state := ShaState {
  va : N; vb : N; vc : N; vd : N; ve : N; vf : N; vg : N; vh : N }.

Definition round (s : sha_state) (kw : N * N) : sha_state :=
  let t1 := add32 (add32 (add32 (vh s) (bigSigma1 (ve s)))
                         (add32 (Ch (ve s) (vf s) (vg s)) (fst kw))) (snd kw) in
  let t2 := add32 (bigSigma0 (va s)) (Maj (va s) (vb s) (vc s)) in
  ShaState (add32 t1 t2) (va s) (vb s) (vc s) (add32 (vd s) t1) (ve s) (vf s) (vg s).

Definition compress (h : sha_state) (block : list N) : sha_state :=
  let s := fold_left round (combine K256 (block ++ schedule 48 block)) h in
  ShaState (add32 (va h) (va s)) (add32 (vb h) (vb s)) (add32 (vc h) (vc s))
           (add32 (vd h) (vd s)) (add32 (ve h) (ve s)) (add32 (vf h) (vf s))
           (add32 (vg h) (vg s)) (add32 (vh h) (vh s)).

Definition bigEndian (width : nat) (x : N) : list N :=
  List.map (fun i => (x / 256 ^ N.of_nat i) mod 256) (rev (seq 0 width)).

(** Padding: a 1 bit, zeros up to 56 modulo 64 octets, the bit length on
    64 bits. *)
Definition pad (msg : list N) : list N :=
  let len := N.of_nat (List.length msg) in
  msg ++ [128] ++ repeat 0 (N.to_nat ((119 - len mod 64) mod 64))
      ++ bigEndian 8 (8 * len).

Fixpoint words32 (octets : list N) : list N :=
  match octets with
  | a :: b :: c :: d :: t => (((a * 256 + b) * 256 + c) * 256 + d) :: words32 t
  | _ => []
  end.

Fixpoint blocks (fuel : nat) (ws : list N) : list (list N) :=
  match fuel, ws with
  | S f, _ :: _ => firstn 16 ws :: blocks f (skipn 16 ws)
  | _, _ => []
  end.

Definition initialHash : sha_state :=
  match H256 with
  | [a; b; c; d; e; f; g; h] => ShaState a b c d e f g h
  | _ => ShaState 0 0 0 0 0 0 0 0
  end.

Definition sha256 (msg : list N) : list N :=
  let ws := words32 (pad msg) in
  let h := fold_left compress (blocks (List.length ws) ws) initialHash in
  flat_map (bigEndian 4) [va h; vb h; vc h; vd h; ve h; vf h; vg h; vh h].

(** ** HMAC (RFC 2104) with SHA-256, block size 64 *)

Definition hmacKeyBlock (key : list N) : list N :=
  let k := if (64 <? List.length key)%nat then sha256 key else key in
  k ++ repeat 0 (64 - List.length k).

Definition hmac_sha256 (key data : list N) : list N :=
  let kb := hmacKeyBlock key in
  sha256 (List.map (N.lxor 92) kb ++ sha256 (List.map (N.lxor 54) kb ++ data)).

(** ** node:crypto

    [createHmac('sha256', key)] takes a string key as its UTF-8 octets,
    [update(data)] likewise, and [digest('hex')] prints the 32 octets in
    lower-case hexadecimal.  Node writes a lone surrogate as U+FFFD. *)

Fixpoint utf8Write (s : jsstring) : list N :=
  match s with
  | [] => []
  | c :: t =>
      if isLeadSurrogate c then
        match t with
        | d :: t' =>
            if isTrailSurrogate d then utf8 (surrogatePair c d) ++ utf8Write t'
            else utf8 65533 ++ utf8Write t
        | [] => utf8 65533
        end
      else if isTrailSurrogate c then utf8 65533 ++ utf8Write t
      else utf8 c ++ utf8Write t
  end.

Definition hexDigitLower (d : N) : codeunit :=
  if d <? 10 then 48 + d else 87 + d.

Definition hexString (octets : list N) : jsstring :=
  flat_map (fun o => [hexDigitLower (o / 16); hexDigitLower (o mod 16)]) octets.

(** ** String.prototype.toLowerCase

    The case mapping is the engine's table of Unicode; the signer is
    modelled over any such function, the [toLowerCase] of section [Signer].
    On a string of ASCII code units every engine computes [toLowerCaseASCII],
    which the worked examples use. *)

Definition toLowerCaseASCII (s : jsstring) : jsstring :=
  List.map (fun c => if (65 <=? c) && (c <=? 90) then c + 32 else c) s.

(** ** The source: src/authorization.ts *)

Record BceCredential := { ak : jsstring; sk : jsstring }.

(** [headers] is the object's [Object.entries], in enumeration order. *)
Record RequestInfo := {
  params : option (list (jsstring * jsstring));
  headers : list (jsstring * jsstring);
  method : jsstring;
  url : jsstring }.

Definition NORMALIZE_MAP : list (codeunit * jsstring) :=
  [ (33, js "%21"); (39, js "%27"); (40, js "%28"); (41, js "%29");
    (42, js "%2A") ].

Fixpoint property (m : list (codeunit * jsstring)) (v : codeunit) : option jsstring :=
  match m with
  | [] => None
  | (k, r) :: m' => if k =? v then Some r else property m' v
  end.

(** The class [!'()*] of the regular expression. *)
Definition matchesClass (c : codeunit) : bool :=
  (c =? 33) || (c =? 39) || (c =? 40) || (c =? 41) || (c =? 42).

(** [replace] with the g flag and a replacer function; a replacer that
    returned undefined would insert the text undefined. *)
Definition replaceAllMatches (replacer : codeunit -> option jsstring)
    (s : jsstring) : jsstring :=
  flat_map (fun v =>
    if matchesClass v then
      match replacer v with Some r => r | None => js "undefined" end
    else [v]) s.

Definition normalize (value : jsstring) : completion jsstring :=
  let* encoded := encodeURIComponent value in
  Ok (replaceAllMatches (property NORMALIZE_MAP) encoded).

(** [flatMap] with a callback that may throw: the first exception ends it. *)
Fixpoint flatMap {A B} (f : A -> completion (list B)) (l : list A) : completion (list B) :=
  match l with
  | [] => Ok []
  | x :: t =>
      let* y := f x in
      let* r := flatMap f t in
      Ok (y ++ r)
  end.

(** [reduce] likewise. *)
Fixpoint reduce {A B} (f : B -> A -> completion B) (l : list A) (init : B) : completion B :=
  match l with
  | [] => Ok init
  | x :: t => let* acc := f init x in reduce f t acc
  end.

Definition DEFAULT_HEADERS_TO_SIGN : list jsstring :=
  [js "host"; js "content-md5"; js "content-length"; js "content-type"].

Record CanonicalizeHeadersContext := {
  acc_signedHeaderNames : list jsstring;
  acc_canonicalizedHeaders : list jsstring }.

Record CanonicalizeHeadersResult := {
  res_signedHeaderNames : list jsstring;
  res_canonicalizedHeaders : jsstring }.

Definition hash (key data : jsstring) : jsstring :=
  hexString (hmac_sha256 (utf8Write key) (utf8Write data)).

Record Options := {
  timestamp : jsstring;
  headerNamesToSign : option (list jsstring);
  expireInSeconds : option jsnumber }.

Record SignatureContext := {
  canonicalRequest : jsstring;
  signedHeaderNames : list jsstring;
  authStringPrefix : jsstring;
  signingKey : jsstring;
  signature : jsstring }.

(** [x || d] on an optional number: [d] when [x] is undefined or falsy. *)
Definition orElse (x : option jsnumber) (d : jsnumber) : jsnumber :=
  match x with
  | Some n => if toBoolean n then n else d
  | None => d
  end.

Definition LF : jsstring := [10].

Section Signer.

Variable toLowerCase : jsstring -> jsstring.

(** The callback of [flatMap]: an empty array for the dropped pair, else
    the one string, which [flatMap] appends as it is. *)
Definition canonicalize (kv : jsstring * jsstring) : completion (list jsstring) :=
  let (key, value) := kv in
  if str_eqb (toLowerCase key) (js "authorization") then Ok []
  else
    let* v := normalize value in
    Ok [key ++ js "=" ++ v].

Definition canonicalizeSearchParams
    (params : option (list (jsstring * jsstring))) : completion jsstring :=
  match params with
  | None => Ok []
  | Some ps =>
      let* parts := flatMap canonicalize ps in
      Ok (join (js "&") (sort parts))
  end.

(** The callback of [reduce].  The values are strings by the type of
    [headers], so [typeof value === 'string'] holds and the value is
    trimmed; a string is truthy when it is not empty. *)
Definition signHeader (headerNamesToSign : list jsstring)
    (result : CanonicalizeHeadersContext) (entry : jsstring * jsstring)
    : completion CanonicalizeHeadersContext :=
  let (name, value) := entry in
  let headerName := toLowerCase name in
  let headerValue := trim value in
  if negb (str_eqb headerValue [])
     && (includes headerNamesToSign headerName
         || startsWith headerName (js "x-bce-"))
  then
    let* n := normalize headerName in
    let* v := normalize headerValue in
    Ok {| acc_signedHeaderNames := acc_signedHeaderNames result ++ [headerName];
          acc_canonicalizedHeaders :=
            acc_canonicalizedHeaders result ++ [n ++ js ":" ++ v] |}
  else Ok result.

Definition canonicalizeHeaders (headers : list (jsstring * jsstring))
    (headerNamesToSign : option (list jsstring))
    : completion CanonicalizeHeadersResult :=
  let names := match headerNamesToSign with
               | Some l => l
               | None => DEFAULT_HEADERS_TO_SIGN
               end in
  let* r := reduce (signHeader names) headers
              {| acc_signedHeaderNames := []; acc_canonicalizedHeaders := [] |} in
  Ok {| res_signedHeaderNames := acc_signedHeaderNames r;
        res_canonicalizedHeaders := join LF (sort (acc_canonicalizedHeaders r)) |}.

Definition createContext (credentials : BceCredential) (request : RequestInfo)
    (options : Options) : completion SignatureContext :=
  let* h := canonicalizeHeaders (headers request) (headerNamesToSign options) in
  let* query := canonicalizeSearchParams (params request) in
  let canonicalRequestParts :=
    [method request; url request; query; res_canonicalizedHeaders h] in
  let canonicalRequest := join LF canonicalRequestParts in
  let authStringPrefix :=
    js "bce-auth-v1/" ++ ak credentials ++ js "/" ++ timestamp options
       ++ js "/" ++ number_toString (orElse (expireInSeconds options) (Integer 1800 eq_refl)) in
  let signingKey := hash (sk credentials) authStringPrefix in
  let signature := hash signingKey canonicalRequest in
  Ok {| canonicalRequest := canonicalRequest;
        signedHeaderNames := res_signedHeaderNames h;
        authStringPrefix := authStringPrefix;
        signingKey := signingKey;
        signature := signature |}.

Definition authorize (credentials : BceCredential) (request : RequestInfo)
    (options : Options) : completion jsstring :=
  let* context := createContext credentials request options in
  Ok (authStringPrefix context ++ js "/"
      ++ join (js ";") (signedHeaderNames context) ++ js "/"
      ++ signature context).

(** The signer over the HMAC of the runtime taken as it comes, a call
    that may throw: [hmac key data] stands for the three calls of [hash],
    createHmac, update and digest.  Nothing around the two calls of
    [createContext] catches. *)
Definition createContextWith (hmac : jsstring -> jsstring -> completion jsstring)
    (credentials : BceCredential) (request : RequestInfo) (options : Options)
    : completion SignatureContext :=
  let* h := canonicalizeHeaders (headers request) (headerNamesToSign options) in
  let* query := canonicalizeSearchParams (params request) in
  let canonicalRequestParts :=
    [method request; url request; query; res_canonicalizedHeaders h] in
  let canonicalRequest := join LF canonicalRequestParts in
  let authStringPrefix :=
    js "bce-auth-v1/" ++ ak credentials ++ js "/" ++ timestamp options
       ++ js "/"
       ++ number_toString (orElse (expireInSeconds options) (Integer 1800 eq_refl)) in
  let* signingKey := hmac (sk credentials) authStringPrefix in
  let* signature := hmac signingKey canonicalRequest in
  Ok {| canonicalRequest := canonicalRequest;
        signedHeaderNames := res_signedHeaderNames h;
        authStringPrefix := authStringPrefix;
        signingKey := signingKey;
        signature := signature |}.

Definition authorizeWith (hmac : jsstring -> jsstring -> completion jsstring)
    (credentials : BceCredential) (request : RequestInfo) (options : Options)
    : completion jsstring :=
  let* context := createContextWith hmac credentials request options in
  Ok (authStringPrefix context ++ js "/"
      ++ join (js ";") (signedHeaderNames context) ++ js "/"
      ++ signature context).

End Signer.

(** ** Definitions of the specification

    What the properties below are stated with: none of these is called by
    the signer. *)

(** No lone surrogate: the strings [encodeURIComponent] accepts. *)
Fixpoint wellFormed (s : jsstring) : bool :=
  match s with
  | [] => true
  | c :: t =>
      if isLeadSurrogate c then
        match t with
        | d :: t' => isTrailSurrogate d && wellFormed t'
        | [] => false
        end
      else negb (isTrailSurrogate c) && wellFormed t
  end.

(** The unreserved set of the scheme: A-Z a-z 0-9 - _ . ~ *)
Definition isUnreserved (c : codeunit) : bool :=
  isAlnum c || (c =? 45) || (c =? 95) || (c =? 46) || (c =? 126).

(** Percent-encoding in one pass, as the scheme words it: an unreserved
    character is kept, every other code point becomes the %XX of its
    UTF-8 octets. *)
Fixpoint escape (s : jsstring) : jsstring :=
  match s with
  | [] => []
  | c :: t =>
      if isUnreserved c then c :: escape t
      else if isLeadSurrogate c then
        match t with
        | d :: t' =>
            if isTrailSurrogate d
            then percentAll (utf8 (surrogatePair c d)) ++ escape t'
            else percentAll (utf8 c) ++ escape t
        | [] => percentAll (utf8 c)
        end
      else percentAll (utf8 c) ++ escape t
  end.

Definition hexValue (c : codeunit) : option N :=
  if (48 <=? c) && (c <=? 57) then Some (c - 48)
  else if (65 <=? c) && (c <=? 70) then Some (c - 55)
  else if (97 <=? c) && (c <=? 102) then Some (c - 87)
  else None.

(** Percent-decoding, octet by octet: %XX gives the octet XX, anything
    else stands for itself. *)
Fixpoint percentDecode (s : jsstring) : list N :=
  match s with
  | [] => []
  | c :: t =>
      if c =? 37 then
        match t with
        | h :: l :: t' =>
            match hexValue h, hexValue l with
            | Some a, Some b => (16 * a + b) :: percentDecode t'
            | _, _ => c :: percentDecode t
            end
        | _ => c :: percentDecode t
        end
      else c :: percentDecode t
  end.

(** Printable ASCII: space to tilde. *)
Definition isPrintable (c : codeunit) : bool := (32 <=? c) && (c <=? 126).

(** The order of [sort] as a relation. *)
Definition str_le (a b : jsstring) : Prop := str_leb a b = true.

Definition mapOk {A B} (f : A -> B) (r : completion A) : completion B :=
  match r with
  | Ok a => Ok (f a)
  | Throw e => Throw e
  end.

Section Specification.

Variable toLowerCase : jsstring -> jsstring.

(** A key that equals authorization whatever its case. *)
Definition isAuthorization (key : jsstring) : bool :=
  str_eqb (toLowerCase key) (js "authorization").

Definition keptParams (ps : list (jsstring * jsstring)) : list (jsstring * jsstring) :=
  filter (fun kv => negb (isAuthorization (fst kv))) ps.

(** The query entry with the key as it stands and the value encoded. *)
Definition queryEntry (kv : jsstring * jsstring) : jsstring :=
  fst kv ++ js "=" ++ escape (snd kv).

(** The query entry with key and value both encoded. *)
Definition queryEntryEncoded (kv : jsstring * jsstring) : jsstring :=
  escape (fst kv) ++ js "=" ++ escape (snd kv).

(** The canonical query string with every kept key and value encoded,
    sorted and joined by &. *)
Definition canonicalizeParams_encodedKeys (ps : list (jsstring * jsstring)) : jsstring :=
  join (js "&") (sort (List.map queryEntryEncoded (keptParams ps))).

(** The header is in the signing set: its trimmed value is not empty and
    its lower-cased name is listed or starts with x-bce-. *)
Definition toSign (names : list jsstring) (entry : jsstring * jsstring) : Prop :=
  trim (snd entry) <> []
  /\ (In (toLowerCase (fst entry)) names
      \/ exists rest, toLowerCase (fst entry) = js "x-bce-" ++ rest).

Definition toSignb (names : list jsstring) (entry : jsstring * jsstring) : bool :=
  match trim (snd entry) with
  | [] => false
  | _ :: _ =>
      if in_dec (list_eq_dec N.eq_dec) (toLowerCase (fst entry)) names then true
      else str_eqb (firstn 6 (toLowerCase (fst entry))) (js "x-bce-")
  end.

Definition headerWellFormed (entry : jsstring * jsstring) : bool :=
  wellFormed (toLowerCase (fst entry)) && wellFormed (trim (snd entry)).

Definition headerEntry (entry : jsstring * jsstring) : jsstring :=
  escape (toLowerCase (fst entry)) ++ js ":" ++ escape (trim (snd entry)).

(** The request can be signed: no lone surrogate in the name or the
    trimmed value of a header to sign, nor in the value of a kept
    parameter. *)
Definition requestWellFormed (request : RequestInfo) (options : Options) : bool :=
  let names := match headerNamesToSign options with
               | Some l => l
               | None => DEFAULT_HEADERS_TO_SIGN
               end in
  forallb headerWellFormed (filter (toSignb names) (headers request))
  && match params request with
     | Some ps => forallb (fun kv => wellFormed (snd kv)) (keptParams ps)
     | None => true
     end.

End Specification.

(** The decimal digits of an integer, after a minus sign when it is
    negative. *)
Definition decimal (n : Z) : jsstring := js (NilZero.string_of_int (Z.to_int n)).

(** A number above zero; one that is not a safe integer is told by the
    minus sign its text starts with. *)
Definition isPositive (x : jsnumber) : bool :=
  match x with
  | Integer n _ => (0 <? n)%Z
  | NaN => false
  | Printed text => negb (startsWith text (js "-"))
  end.

(** The expiry of the token: the option when positive, else 1800. *)
Definition expire_positiveOrDefault (x : option jsnumber) : jsnumber :=
  match x with
  | Some n => if isPositive n then n else Integer 1800 eq_refl
  | None => Integer 1800 eq_refl
  end.

(** The HMAC of node:crypto, which returns for every key and data. *)
Definition nodeHmac (key data : jsstring) : completion jsstring :=
  Ok (hash key data).

(** An HMAC that would refuse an empty key. *)
Definition hmacRefusingEmptyKey (key data : jsstring) : completion jsstring :=
  match key with
  | [] => Throw (Error (js "empty key"))
  | _ :: _ => Ok (hash key data)
  end.

Definition withExpire (o : Options) (e : option jsnumber) : Options :=
  {| timestamp := timestamp o;
     headerNamesToSign := headerNamesToSign o;
     expireInSeconds := e |}.

Definition withParams (r : RequestInfo) (ps : option (list (jsstring * jsstring)))
    : RequestInfo :=
  {| params := ps; headers := headers r; method := method r; url := url r |}.

Definition withHeaders (r : RequestInfo) (hs : list (jsstring * jsstring))
    : RequestInfo :=
  {| params := params r; headers := hs; method := method r; url := url r |}.

Definition withSecretKey (c : BceCredential) (k : jsstring) : BceCredential :=
  {| ak := ak c; sk := k |}.

(** The two parameter lists hold the same pairs, in any order. *)
Definition sameParams (a b : option (list (jsstring * jsstring))) : Prop :=
  match a, b with
  | Some x, Some y => Permutation x y
  | None, None => True
  | _, _ => False
  end.

(** The selection when no name is listed: only the x-bce- prefix counts. *)
Definition hasBcePrefix (toLowerCase : jsstring -> jsstring)
    (entry : jsstring * jsstring) : bool :=
  negb (str_eqb (trim (snd entry)) [])
  && startsWith (toLowerCase (fst entry)) (js "x-bce-").

(** A code unit is a number of 16 bits. *)
Definition isCodeUnit (c : N) : bool := c <? 65536.

(** What a normalized string is made of: unreserved characters and the
    percent sign. *)
Definition isSafe (c : codeunit) : bool := isUnreserved c || (c =? 37).

Definition isLowerHex (c : codeunit) : bool :=
  ((48 <=? c) && (c <=? 57)) || ((97 <=? c) && (c <=? 102)).

(** The list the headers are matched against. *)
Definition signingNames (options : Options) : list jsstring :=
  match headerNamesToSign options with
  | Some l => l
  | None => DEFAULT_HEADERS_TO_SIGN
  end.

(** Two header entries with the same lower-cased name and the same
    trimmed value. *)
Definition sameHeader (toLowerCase : jsstring -> jsstring)
    (a b : jsstring * jsstring) : Prop :=
  toLowerCase (fst a) = toLowerCase (fst b) /\ trim (snd a) = trim (snd b).

(** ** A worked request *)

Definition credentials0 : BceCredential := {| ak := js "AK"; sk := js "SK" |}.

Definition request0 : RequestInfo :=
  {| params := None;
     headers := [(js "Host", js "bj.bcebos.com")];
     method := js "GET";
     url := js "/v1/object" |}.

Definition options0 : Options :=
  {| timestamp := js "2015-04-27T08:23:49Z";
     headerNamesToSign := None;
     expireInSeconds := None |}.

Definition context0 : SignatureContext :=
  let prefix := js "bce-auth-v1/AK/2015-04-27T08:23:49Z/1800" in
  let request := js "GET" ++ LF ++ js "/v1/object" ++ LF ++ LF
                    ++ js "host:bj.bcebos.com" in
  {| canonicalRequest := request;
     signedHeaderNames := [js "host"];
     authStringPrefix := prefix;
     signingKey := hash (js "SK") prefix;
     signature := hash (hash (js "SK") prefix) request |}.

Definition token0 : jsstring :=
  authStringPrefix context0 ++ js "/host/" ++ signature context0.

(** The token of the same request under an empty secret key. *)
Definition tokenEmptyKey : jsstring :=
  let prefix := js "bce-auth-v1/AK/2015-04-27T08:23:49Z/1800" in
  prefix ++ js "/host/" ++ hash (hash [] prefix) (canonicalRequest context0).

(** Printable characters of every kind: letters, marks, reserved. *)
Definition printable0 : jsstring := js "Az09 -_.~!'()*%/+=&:;,?#[]@$".

(** A string with a space, a Latin letter with an accent, the euro sign
    and a character outside the basic plane, written D83D DE00. *)
Definition mixed0 : jsstring := js "a b" ++ [233; 8364; 55357; 56832].

(** The same request with two signed headers and two parameters, and with
    both written in the other order. *)
Definition headersAB : list (jsstring * jsstring) :=
  [(js "Host", js "bj.bcebos.com"); (js "X-Bce-Date", js "2015-04-27T08:23:49Z")].
Definition headersBA : list (jsstring * jsstring) :=
  [(js "X-Bce-Date", js "2015-04-27T08:23:49Z"); (js "Host", js "bj.bcebos.com")].
Definition paramsAB : list (jsstring * jsstring) := [(js "a", js "1"); (js "b", js "2")].
Definition paramsBA : list (jsstring * jsstring) := [(js "b", js "2"); (js "a", js "1")].

Definition requestAB : RequestInfo :=
  {| params := Some paramsAB; headers := headersAB;
     method := js "GET"; url := js "/v1/object" |}.
Definition requestBA : RequestInfo :=
  {| params := Some paramsBA; headers := headersBA;
     method := js "GET"; url := js "/v1/object" |}.

(** * Properties *)

(** ** The runtime *)

Ltac cmp_cases :=
  repeat (match goal with
          | |- context [?a <=? ?b] => destruct (N.leb_spec a b)
          | |- context [?a <? ?b] => destruct (N.ltb_spec a b)
          | |- context [?a =? ?b] => destruct (N.eqb_spec a b)
          | H : context [?a <=? ?b] |- _ => destruct (N.leb_spec a b)
          | H : context [?a <? ?b] |- _ => destruct (N.ltb_spec a b)
          | H : context [?a =? ?b] |- _ => destruct (N.eqb_spec a b)
          end; cbn [andb orb negb] in *; try lia; try discriminate).

Lemma bind_mapOk {A B} (f : A -> B) (r : completion A) :
  (let* a := r in Ok (f a)) = mapOk f r.
Proof. destruct r; reflexivity. Qed.

Lemma Ok_inj {A} (a b : A) : Ok a = Ok b -> a = b.
Proof. congruence. Qed.

Lemma hexDigitUpper_unmatched d : matchesClass (hexDigitUpper d) = false.
Proof. unfold matchesClass, hexDigitUpper. cmp_cases; reflexivity. Qed.

Lemma replace_app f a b :
  replaceAllMatches f (a ++ b) = replaceAllMatches f a ++ replaceAllMatches f b.
Proof. unfold replaceAllMatches. apply flat_map_app. Qed.

Lemma replace_percentAll f l :
  replaceAllMatches f (percentAll l) = percentAll l.
Proof.
  induction l as [|o l IH]; [reflexivity|].
  change (percentAll (o :: l)) with (percent o ++ percentAll l).
  rewrite replace_app, IH. f_equal.
  unfold percent, replaceAllMatches. cbn [flat_map].
  rewrite !hexDigitUpper_unmatched. reflexivity.
Qed.

(** The five characters [encodeURIComponent] leaves and the map escapes. *)
Lemma replace_unescaped c :
  uriUnescaped c = true ->
  replaceAllMatches (property NORMALIZE_MAP) [c]
  = if isUnreserved c then [c] else percentAll (utf8 c).
Proof.
  unfold uriUnescaped, isUnreserved, isAlnum, isUriMark, replaceAllMatches,
    matchesClass.
  intros H. simpl. cmp_cases; subst; reflexivity.
Qed.

Lemma unescaped_not_surrogate c :
  uriUnescaped c = true -> isLeadSurrogate c = false /\ isTrailSurrogate c = false.
Proof.
  unfold uriUnescaped, isAlnum, isUriMark, isLeadSurrogate, isTrailSurrogate.
  intros H. cmp_cases; subst; split; reflexivity.
Qed.

Lemma unreserved_unescaped c : isUnreserved c = true -> uriUnescaped c = true.
Proof.
  unfold uriUnescaped, isUnreserved, isAlnum, isUriMark.
  intros H. cmp_cases; subst; reflexivity.
Qed.

(** [normalize], the two passes of the source, is the one-pass [escape]
    on a well-formed string and throws on any other. *)
Lemma normalize_escape_len n : forall s, (List.length s <= n)%nat ->
  normalize s = if wellFormed s then Ok (escape s) else Throw URIError.
Proof.
  unfold normalize.
  induction n as [|n IH]; intros [|c t] Hlen; try reflexivity;
    try (simpl in Hlen; lia).
  simpl in Hlen. cbn [encodeURIComponent wellFormed escape].
  destruct (uriUnescaped c) eqn:Hu.
  - destruct (unescaped_not_surrogate c Hu) as [Hl Ht]. rewrite Hl, Ht.
    cbn [negb andb]. rewrite bind_mapOk. 
    specialize (IH t ltac:(lia)). rewrite bind_mapOk in IH.
    destruct (encodeURIComponent t) as [r|e]; cbn [mapOk bind] in *.
    + change (c :: r) with ([c] ++ r).
      rewrite (replace_app _ [c] r), (replace_unescaped c Hu).
      destruct (wellFormed t); [|discriminate]. apply Ok_inj in IH; rewrite IH.
      destruct (isUnreserved c); reflexivity.
    + destruct (wellFormed t); [discriminate|]. exact IH.
  - assert (Hr : isUnreserved c = false).
    { destruct (isUnreserved c) eqn:E; [|reflexivity].
      apply unreserved_unescaped in E. congruence. }
    rewrite Hr. destruct (isLeadSurrogate c) eqn:Hl.
    + destruct t as [|d t']; [reflexivity|].
      destruct (isTrailSurrogate d) eqn:Hd; [|reflexivity]. cbn [andb].
      simpl in Hlen. specialize (IH t' ltac:(lia)). rewrite bind_mapOk in IH.
      destruct (encodeURIComponent t') as [r|e]; cbn [mapOk bind] in *.
      * rewrite (replace_app _ _ r), replace_percentAll.
        destruct (wellFormed t'); [|discriminate]. apply Ok_inj in IH; rewrite IH. reflexivity.
      * destruct (wellFormed t'); [discriminate|]. exact IH.
    + destruct (isTrailSurrogate c) eqn:Ht; [reflexivity|]. cbn [negb andb].
      specialize (IH t ltac:(lia)). rewrite bind_mapOk in IH.
      destruct (encodeURIComponent t) as [r|e]; cbn [mapOk bind] in *.
      * rewrite (replace_app _ _ r), replace_percentAll.
        destruct (wellFormed t); [|discriminate]. apply Ok_inj in IH; rewrite IH. reflexivity.
      * destruct (wellFormed t); [discriminate|]. exact IH.
Qed.

Lemma normalize_escape s :
  normalize s = if wellFormed s then Ok (escape s) else Throw URIError.
Proof. apply (normalize_escape_len (List.length s)). lia. Qed.

(** *** The order of [sort] *)

Lemma str_le_refl a : str_le a a.
Proof.
  unfold str_le. induction a as [|x a IH]; [reflexivity|].
  simpl. rewrite N.ltb_irrefl. exact IH.
Qed.

Lemma str_le_trans a b c : str_le a b -> str_le b c -> str_le a c.
Proof.
  unfold str_le. revert b c.
  induction a as [|x a IH]; intros [|y b] [|z c]; simpl; try congruence.
  intros Hab Hbc. cmp_cases. eauto.
Qed.

Lemma str_le_antisym a b : str_le a b -> str_le b a -> a = b.
Proof.
  unfold str_le. revert b.
  induction a as [|x a IH]; intros [|y b]; simpl; try congruence.
  intros Hab Hba. cmp_cases. f_equal; [lia | auto].
Qed.

Lemma sort_Permutation l : Permutation l (sort l).
Proof. apply StrSort.Permuted_sort. Qed.

Lemma sort_StronglySorted l : StronglySorted str_le (sort l).
Proof.
  apply StrSort.StronglySorted_sort.
  intros a b c Hab Hbc. exact (str_le_trans a b c Hab Hbc).
Qed.

(** A list has one sorted arrangement. *)
Lemma sorted_unique l1 : forall l2,
  StronglySorted str_le l1 -> StronglySorted str_le l2 ->
  Permutation l1 l2 -> l1 = l2.
Proof.
  induction l1 as [|x l1 IH]; intros l2 H1 H2 HP.
  - apply Permutation_nil in HP. congruence.
  - destruct l2 as [|y l2].
    { apply Permutation_sym, Permutation_nil in HP. discriminate. }
    apply StronglySorted_inv in H1. destruct H1 as [H1 Hx].
    apply StronglySorted_inv in H2. destruct H2 as [H2 Hy].
    assert (x = y) as ->.
    { assert (Hin1 : In x (y :: l2)).
      { eapply Permutation_in; [exact HP | left; reflexivity]. }
      assert (Hin2 : In y (x :: l1)).
      { eapply Permutation_in; [apply Permutation_sym; exact HP | left; reflexivity]. }
      rewrite Forall_forall in Hx, Hy.
      destruct Hin1 as [->|Hin1]; [reflexivity|].
      destruct Hin2 as [->|Hin2]; [reflexivity|].
      apply str_le_antisym; auto. }
    f_equal. apply IH; auto. eapply Permutation_cons_inv; exact HP.
Qed.

Lemma sort_order_invariant l1 l2 : Permutation l1 l2 -> sort l1 = sort l2.
Proof.
  intros HP. apply sorted_unique; try apply sort_StronglySorted.
  eapply Permutation_trans; [apply Permutation_sym, sort_Permutation|].
  eapply Permutation_trans; [exact HP | apply sort_Permutation].
Qed.

(** *** String equality, membership, prefix *)

Lemma str_eqb_eq a b : str_eqb a b = true <-> a = b.
Proof.
  unfold str_eqb. destruct (list_eq_dec N.eq_dec a b); split; congruence.
Qed.

Lemma includes_In l x : includes l x = true <-> In x l.
Proof.
  unfold includes. rewrite existsb_exists. split.
  - intros [y [Hin Heq]]. apply str_eqb_eq in Heq. subst. exact Hin.
  - intros Hin. exists x. split; [exact Hin | apply str_eqb_eq; reflexivity].
Qed.

Lemma startsWith_prefix p : forall s,
  startsWith s p = true <-> exists rest, s = p ++ rest.
Proof.
  induction p as [|y p IH]; intros s; simpl.
  - split; [intros _; exists s; reflexivity | reflexivity].
  - destruct s as [|x s].
    + split; [discriminate | intros [rest H]; discriminate].
    + rewrite andb_true_iff, N.eqb_eq, IH. split.
      * intros [-> [rest ->]]. exists rest. reflexivity.
      * intros [rest H]. injection H as -> ->. split; [reflexivity | eauto].
Qed.

(** *** Reordering *)

Lemma filter_Permutation {A} (f : A -> bool) l1 l2 :
  Permutation l1 l2 -> Permutation (filter f l1) (filter f l2).
Proof.
  induction 1 as [|x l1 l2 _ IH|x y l|l1 l2 l3 _ IH1 _ IH2]; cbn [filter].
  - constructor.
  - destruct (f x); [constructor|]; exact IH.
  - destruct (f x), (f y); try constructor; apply Permutation_refl.
  - eapply Permutation_trans; eassumption.
Qed.

Lemma forallb_Permutation {A} (f : A -> bool) l1 l2 :
  Permutation l1 l2 -> forallb f l1 = forallb f l2.
Proof.
  intros HP. apply eq_true_iff_eq. rewrite !forallb_forall. split; intros H x Hx.
  - apply H. eapply Permutation_in; [apply Permutation_sym; exact HP | exact Hx].
  - apply H. eapply Permutation_in; [exact HP | exact Hx].
Qed.

(** *** The digest *)

(** The vector of FIPS 180-4 for abc and test case 2 of RFC 4231. *)
Example sha256_abc :
  hexString (sha256 (utf8Write (js "abc")))
  = js "ba7816bf8f01cfea414140de5dae2223b00361a396177a9cb410ff61f20015ad".
Proof. vm_compute. reflexivity. Qed.

Example hmac_sha256_rfc4231_2 :
  hash (js "Jefe") (js "what do ya want for nothing?")
  = js "5bdcc146bf60754e6a042426089575c75a003f089d2739839dec58b964ec3843".
Proof. vm_compute. reflexivity. Qed.

Lemma sha256_length msg : List.length (sha256 msg) = 32%nat.
Proof.
  unfold sha256.
  generalize (fold_left compress
                (blocks (List.length (words32 (pad msg))) (words32 (pad msg)))
                initialHash).
  intros h. reflexivity.
Qed.

Lemma hexString_length octets :
  List.length (hexString octets) = (2 * List.length octets)%nat.
Proof.
  induction octets as [|o l IH]; [reflexivity|].
  unfold hexString in *. cbn [flat_map List.length app]. rewrite IH.
  cbn [List.length]. lia.
Qed.

Lemma hash_length key data : List.length (hash key data) = 64%nat.
Proof.
  unfold hash, hmac_sha256. rewrite hexString_length, sha256_length. reflexivity.
Qed.

(** ** The claim on normalize *)

Lemma hexValue_hexDigitUpper d : d < 16 -> hexValue (hexDigitUpper d) = Some d.
Proof.
  intros H. unfold hexValue, hexDigitUpper. cmp_cases; f_equal; lia.
Qed.

Lemma percentDecode_percent o rest :
  o < 256 -> percentDecode (percent o ++ rest) = o :: percentDecode rest.
Proof.
  intros H. unfold percent. cbn [app percentDecode]. rewrite N.eqb_refl.
  rewrite !hexValue_hexDigitUpper.
  - f_equal. pose proof (N.div_mod o 16). lia.
  - apply N.mod_lt. lia.
  - apply N.Div0.div_lt_upper_bound. lia.
Qed.

Lemma printable_facts c :
  isPrintable c = true ->
  c < 128 /\ isLeadSurrogate c = false /\ isTrailSurrogate c = false
  /\ (isUnreserved c = true -> (c =? 37) = false).
Proof.
  unfold isPrintable, isLeadSurrogate, isTrailSurrogate, isUnreserved, isAlnum.
  intros H. cmp_cases; repeat split; try lia; try reflexivity; intros; try discriminate.
Qed.

Lemma printable_roundtrip s :
  forallb isPrintable s = true ->
  wellFormed s = true /\ percentDecode (escape s) = s.
Proof.
  induction s as [|c t IH]; [split; reflexivity|].
  cbn [forallb]. rewrite andb_true_iff. intros [Hc Ht].
  destruct (IH Ht) as [Hwf Hdec].
  destruct (printable_facts c Hc) as [Hlt [Hl [Htr Hpc]]].
  cbn [wellFormed escape]. rewrite Hl, Htr, Hwf. split; [reflexivity|].
  destruct (isUnreserved c) eqn:Hu.
  - cbn [percentDecode]. rewrite (Hpc eq_refl), Hdec. reflexivity.
  - unfold utf8. apply N.ltb_lt in Hlt. rewrite Hlt. apply N.ltb_lt in Hlt.
    cbn [percentAll flat_map]. rewrite app_nil_r.
    rewrite percentDecode_percent by lia. rewrite Hdec. reflexivity.
Qed.

Lemma unreserved_escape s : forallb isUnreserved s = true -> escape s = s.
Proof.
  induction s as [|c t IH]; [reflexivity|].
  cbn [forallb escape]. rewrite andb_true_iff. intros [Hc Ht].
  rewrite Hc, (IH Ht). reflexivity.
Qed.

(** C8: on a string of printable ASCII characters normalize returns, and
    percent-decoding what it returns gives the string back; it writes the
    exclamation mark, the apostrophe, the two parentheses, the asterisk
    and the space as %21 %27 %28 %29 %2A %20, and leaves a string of
    unreserved characters (letters, digits, hyphen, underscore, dot,
    tilde) as it is. *)
Theorem normalize_printable_roundtrip s :
  forallb isPrintable s = true ->
  (exists out, normalize s = Ok out /\ percentDecode out = s)
  /\ normalize [33] = Ok (js "%21")
  /\ normalize [39] = Ok (js "%27")
  /\ normalize [40] = Ok (js "%28")
  /\ normalize [41] = Ok (js "%29")
  /\ normalize [42] = Ok (js "%2A")
  /\ normalize [32] = Ok (js "%20")
  /\ (forallb isUnreserved s = true -> normalize s = Ok s).
Proof.
  intros H. destruct (printable_roundtrip s H) as [Hwf Hdec].
  split.
  { exists (escape s). rewrite normalize_escape, Hwf. split; [reflexivity | exact Hdec]. }
  repeat (split; [reflexivity|]).
  intros Hu. rewrite normalize_escape, Hwf, (unreserved_escape s Hu). reflexivity.
Qed.

(** ** The canonicalizers *)

Section SignerProperties.

Variable toLowerCase : jsstring -> jsstring.

Lemma keptParams_cons key value ps :
  keptParams toLowerCase ((key, value) :: ps)
  = if isAuthorization toLowerCase key then keptParams toLowerCase ps
    else (key, value) :: keptParams toLowerCase ps.
Proof.
  unfold keptParams. cbn [filter fst].
  destruct (isAuthorization toLowerCase key); reflexivity.
Qed.

Lemma flatMap_canonicalize ps :
  flatMap (canonicalize toLowerCase) ps
  = if forallb (fun kv => wellFormed (snd kv)) (keptParams toLowerCase ps)
    then Ok (List.map queryEntry (keptParams toLowerCase ps))
    else Throw URIError.
Proof.
  induction ps as [|[key value] ps IH]; [reflexivity|].
  rewrite keptParams_cons. cbn [flatMap canonicalize].
  change (str_eqb (toLowerCase key) (js "authorization"))
    with (isAuthorization toLowerCase key).
  rewrite IH. destruct (isAuthorization toLowerCase key); cbn [bind].
  - destruct (forallb _ _); reflexivity.
  - rewrite normalize_escape. cbn [forallb List.map snd].
    destruct (wellFormed value); cbn [bind andb]; [|reflexivity].
    destruct (forallb _ _); reflexivity.
Qed.

Lemma toSignb_toSign names entry :
  toSignb toLowerCase names entry = true <-> toSign toLowerCase names entry.
Proof.
  unfold toSignb, toSign.
  destruct (trim (snd entry)) as [|c v] eqn:Hv.
  - split; [discriminate | intros [H _]; congruence].
  - destruct (in_dec (list_eq_dec N.eq_dec) (toLowerCase (fst entry)) names)
      as [Hin|Hout].
    + split; [intros _; split; [discriminate | left; exact Hin] | reflexivity].
    + rewrite str_eqb_eq. split.
      * intros H. split; [discriminate|]. right.
        exists (skipn 6 (toLowerCase (fst entry))).
        rewrite <- H. symmetry. apply firstn_skipn.
      * intros [_ [Hin | [rest ->]]]; [contradiction | reflexivity].
Qed.

(** The test of the source's [if] is the test of the specification. *)
Lemma signHeader_test names name value :
  negb (str_eqb (trim value) [])
  && (includes names (toLowerCase name)
      || startsWith (toLowerCase name) (js "x-bce-"))
  = toSignb toLowerCase names (name, value).
Proof.
  apply eq_true_iff_eq.
  rewrite toSignb_toSign, andb_true_iff, orb_true_iff, negb_true_iff,
    includes_In, startsWith_prefix.
  unfold toSign. cbn [fst snd].
  assert (H : str_eqb (trim value) [] = false <-> trim value <> []).
  { rewrite <- not_true_iff_false, str_eqb_eq. reflexivity. }
  rewrite H. reflexivity.
Qed.

Lemma reduce_signHeader names hs : forall acc,
  reduce (signHeader toLowerCase names) hs acc
  = let signed := filter (toSignb toLowerCase names) hs in
    if forallb (headerWellFormed toLowerCase) signed
    then Ok {| acc_signedHeaderNames :=
                 acc_signedHeaderNames acc
                 ++ List.map (fun e => toLowerCase (fst e)) signed;
               acc_canonicalizedHeaders :=
                 acc_canonicalizedHeaders acc
                 ++ List.map (headerEntry toLowerCase) signed |}
    else Throw URIError.
Proof.
  induction hs as [|[name value] hs IH]; intros acc.
  - cbn. rewrite !app_nil_r. destruct acc; reflexivity.
  - cbn [reduce signHeader filter]. rewrite signHeader_test.
    destruct (toSignb toLowerCase names (name, value)).
    + rewrite !normalize_escape.
      cbn [forallb List.map]. unfold headerWellFormed at 1. cbn [fst snd].
      destruct (wellFormed (toLowerCase name)); cbn [bind andb]; [|reflexivity].
      destruct (wellFormed (trim value)); cbn [bind andb]; [|reflexivity].
      rewrite IH. cbn zeta. cbn [acc_signedHeaderNames acc_canonicalizedHeaders].
      rewrite <- !app_assoc. reflexivity.
    + cbn [bind]. apply IH.
Qed.

Lemma canonicalizeSearchParams_entries ps :
  canonicalizeSearchParams toLowerCase (Some ps)
  = if forallb (fun kv => wellFormed (snd kv)) (keptParams toLowerCase ps)
    then Ok (join (js "&") (sort (List.map queryEntry (keptParams toLowerCase ps))))
    else Throw URIError.
Proof.
  unfold canonicalizeSearchParams. rewrite flatMap_canonicalize.
  destruct (forallb _ _); reflexivity.
Qed.

Lemma canonicalizeHeaders_entries hs names :
  canonicalizeHeaders toLowerCase hs (Some names)
  = let signed := filter (toSignb toLowerCase names) hs in
    if forallb (headerWellFormed toLowerCase) signed
    then Ok {| res_signedHeaderNames :=
                 List.map (fun e => toLowerCase (fst e)) signed;
               res_canonicalizedHeaders :=
                 join LF (sort (List.map (headerEntry toLowerCase) signed)) |}
    else Throw URIError.
Proof.
  unfold canonicalizeHeaders. rewrite reduce_signHeader. cbn zeta.
  destruct (forallb _ _); reflexivity.
Qed.

Lemma keptParams_idempotent ps :
  keptParams toLowerCase (keptParams toLowerCase ps) = keptParams toLowerCase ps.
Proof.
  unfold keptParams. induction ps as [|kv ps IH]; [reflexivity|].
  cbn [filter]. destruct (negb (isAuthorization toLowerCase (fst kv))) eqn:E.
  - cbn [filter]. rewrite E, IH. reflexivity.
  - exact IH.
Qed.

Lemma queryEntry_normalize kv :
  wellFormed (snd kv) = true ->
  exists v, normalize (snd kv) = Ok v /\ queryEntry kv = fst kv ++ js "=" ++ v.
Proof.
  intros H. exists (escape (snd kv)). rewrite normalize_escape, H.
  split; reflexivity.
Qed.

Lemma headerEntry_normalize entry :
  headerWellFormed toLowerCase entry = true ->
  exists n v,
    normalize (toLowerCase (fst entry)) = Ok n
    /\ normalize (trim (snd entry)) = Ok v
    /\ headerEntry toLowerCase entry = n ++ js ":" ++ v.
Proof.
  unfold headerWellFormed. rewrite andb_true_iff. intros [Hn Hv].
  exists (escape (toLowerCase (fst entry))), (escape (trim (snd entry))).
  rewrite !normalize_escape, Hn, Hv. repeat split.
Qed.

(** ** The claims on the canonical query string *)

(** C3, as amended: an absent or empty parameter list gives the empty
    string; otherwise every pair whose lower-cased key is not authorization
    emits its key as it stands, an equals sign and the normalized value
    (only the value is percent-encoded), the entries are sorted by code
    unit and joined by an ampersand; the call throws exactly when a kept
    value holds a lone surrogate. *)
Theorem canonicalizeSearchParams_raw_keys :
  canonicalizeSearchParams toLowerCase None = Ok []
  /\ canonicalizeSearchParams toLowerCase (Some []) = Ok []
  /\ forall ps,
       let kept := keptParams toLowerCase ps in
       let entries := List.map queryEntry kept in
       canonicalizeSearchParams toLowerCase (Some ps)
       = (if forallb (fun kv => wellFormed (snd kv)) kept
          then Ok (join (js "&") (sort entries))
          else Throw URIError)
       /\ Permutation entries (sort entries)
       /\ StronglySorted str_le (sort entries)
       /\ (forall kv, In kv kept <->
              In kv ps /\ toLowerCase (fst kv) <> js "authorization")
       /\ (forall kv, wellFormed (snd kv) = true ->
              exists v, normalize (snd kv) = Ok v
                        /\ queryEntry kv = fst kv ++ js "=" ++ v).
Proof.
  split; [reflexivity|]. split; [reflexivity|].
  intros ps kept entries. split; [apply canonicalizeSearchParams_entries|].
  split; [apply sort_Permutation|]. split; [apply sort_StronglySorted|].
  split; [|apply queryEntry_normalize].
  intros kv. unfold kept, keptParams. rewrite filter_In, negb_true_iff.
  unfold isAuthorization. rewrite <- not_true_iff_false, str_eqb_eq.
  reflexivity.
Qed.

(** C5: the pairs whose key lower-cases to authorization are absent from
    the canonical query string, which is made of the entries of the other
    pairs only and is the one of the list without them, and so are they
    from the signed request and the token. *)
Theorem authorization_params_absent ps :
  canonicalizeSearchParams toLowerCase (Some ps)
  = canonicalizeSearchParams toLowerCase (Some (keptParams toLowerCase ps))
  /\ (forall out, canonicalizeSearchParams toLowerCase (Some ps) = Ok out ->
        out = join (js "&")
                (sort (List.map queryEntry (keptParams toLowerCase ps))))
  /\ (forall kv, In kv (keptParams toLowerCase ps) ->
        toLowerCase (fst kv) <> js "authorization")
  /\ (forall credentials request options,
        createContext toLowerCase credentials (withParams request (Some ps)) options
        = createContext toLowerCase credentials
            (withParams request (Some (keptParams toLowerCase ps))) options)
  /\ (forall credentials request options,
        authorize toLowerCase credentials (withParams request (Some ps)) options
        = authorize toLowerCase credentials
            (withParams request (Some (keptParams toLowerCase ps))) options).
Proof.
  assert (E : canonicalizeSearchParams toLowerCase (Some ps)
              = canonicalizeSearchParams toLowerCase
                  (Some (keptParams toLowerCase ps))).
  { rewrite !canonicalizeSearchParams_entries, keptParams_idempotent.
    reflexivity. }
  split; [exact E|]. split.
  { intros out. rewrite canonicalizeSearchParams_entries.
    destruct (forallb _ _); [|discriminate]. intros H. apply Ok_inj in H.
    symmetry. exact H. }
  split.
  - intros kv Hin. unfold keptParams in Hin.
    apply filter_In in Hin. destruct Hin as [_ Hk].
    apply negb_true_iff in Hk. unfold isAuthorization in Hk.
    rewrite <- not_true_iff_false, str_eqb_eq in Hk. exact Hk.
  - assert (C : forall credentials request options,
        createContext toLowerCase credentials (withParams request (Some ps)) options
        = createContext toLowerCase credentials
            (withParams request (Some (keptParams toLowerCase ps))) options).
    { intros. unfold createContext, withParams. cbn [params headers method url].
      rewrite E. reflexivity. }
    split; [exact C|]. intros. unfold authorize. rewrite C. reflexivity.
Qed.

(** ** The claims on the canonical headers *)

(** C6: a header is signed exactly when its trimmed value is not empty
    and its lower-cased name is listed in headerNamesToSign or starts with
    x-bce-; signedHeaderNames holds the lower-cased names of the signed
    headers in the order of the input, and the canonical block is their
    entries, normalized lower-cased name, colon, normalized trimmed value,
    sorted and joined by newlines.  The call throws exactly when a signed
    name or value holds a lone surrogate. *)
Theorem canonicalizeHeaders_selection hs names :
  let signed := filter (toSignb toLowerCase names) hs in
  let entries := List.map (headerEntry toLowerCase) signed in
  (forall entry, In entry signed <->
                 In entry hs /\ toSign toLowerCase names entry)
  /\ canonicalizeHeaders toLowerCase hs (Some names)
     = (if forallb (headerWellFormed toLowerCase) signed
        then Ok {| res_signedHeaderNames :=
                     List.map (fun e => toLowerCase (fst e)) signed;
                   res_canonicalizedHeaders := join LF (sort entries) |}
        else Throw URIError)
  /\ Permutation entries (sort entries)
  /\ StronglySorted str_le (sort entries)
  /\ (forall entry, headerWellFormed toLowerCase entry = true ->
        exists n v,
          normalize (toLowerCase (fst entry)) = Ok n
          /\ normalize (trim (snd entry)) = Ok v
          /\ headerEntry toLowerCase entry = n ++ js ":" ++ v).
Proof.
  intros signed entries. split.
  { intros entry. unfold signed. rewrite filter_In, toSignb_toSign. reflexivity. }
  split; [apply canonicalizeHeaders_entries|].
  split; [apply sort_Permutation|]. split; [apply sort_StronglySorted|].
  apply headerEntry_normalize.
Qed.

Lemma toSignb_nil entry :
  toSignb toLowerCase [] entry = hasBcePrefix toLowerCase entry.
Proof.
  destruct entry as [name value].
  rewrite <- signHeader_test. reflexivity.
Qed.

(** C10: an explicit empty headerNamesToSign is used as it is, the default
    list standing in only for an absent one: with the empty list the
    signed headers are those whose lower-cased name starts with x-bce- and
    whose trimmed value is not empty, so a Host header is not signed,
    while it is when the option is absent. *)
Theorem empty_headerNamesToSign_kept hs value :
  toLowerCase (js "Host") = js "host" ->
  trim value <> [] ->
  wellFormed (trim value) = true ->
  canonicalizeHeaders toLowerCase hs (Some [])
  = (let signed := filter (hasBcePrefix toLowerCase) hs in
     if forallb (headerWellFormed toLowerCase) signed
     then Ok {| res_signedHeaderNames :=
                  List.map (fun e => toLowerCase (fst e)) signed;
                res_canonicalizedHeaders :=
                  join LF (sort (List.map (headerEntry toLowerCase) signed)) |}
     else Throw URIError)
  /\ canonicalizeHeaders toLowerCase hs None
     = canonicalizeHeaders toLowerCase hs (Some DEFAULT_HEADERS_TO_SIGN)
  /\ mapOk res_signedHeaderNames
       (canonicalizeHeaders toLowerCase [(js "Host", value)] (Some [])) = Ok []
  /\ mapOk res_signedHeaderNames
       (canonicalizeHeaders toLowerCase [(js "Host", value)] None)
     = Ok [js "host"].
Proof.
  intros Hhost Hv Hwf. split.
  { rewrite canonicalizeHeaders_entries. cbn zeta.
    rewrite (filter_ext _ _ toSignb_nil). reflexivity. }
  split; [reflexivity|].
  assert (Hne : str_eqb (trim value) [] = false).
  { rewrite <- not_true_iff_false, str_eqb_eq. exact Hv. }
  split.
  - rewrite canonicalizeHeaders_entries. cbn zeta. cbn [filter].
    rewrite toSignb_nil. unfold hasBcePrefix. cbn [fst snd].
    rewrite Hhost, Hne. reflexivity.
  - change (canonicalizeHeaders toLowerCase [(js "Host", value)] None)
      with (canonicalizeHeaders toLowerCase [(js "Host", value)]
              (Some DEFAULT_HEADERS_TO_SIGN)).
    rewrite canonicalizeHeaders_entries. cbn zeta. cbn [filter].
    rewrite <- signHeader_test. rewrite Hhost, Hne.
    cbn [negb andb includes existsb DEFAULT_HEADERS_TO_SIGN].
    replace (str_eqb (js "host") (js "host")) with true
      by (symmetry; apply str_eqb_eq; reflexivity).
    cbn [orb forallb]. unfold headerWellFormed. cbn [fst snd].
    rewrite Hhost, Hwf.
    replace (wellFormed (js "host")) with true by reflexivity.
    cbn [andb mapOk res_signedHeaderNames List.map fst]. rewrite Hhost.
    reflexivity.
Qed.

(** ** The claim on the order of the input *)

(** C7: two requests whose headers hold the same entries and whose
    parameters hold the same pairs, in any order, with the same method,
    url, credentials and options, get the same canonical request and the
    same signature. *)
Theorem signature_order_invariant credentials options m u hs1 hs2 ps1 ps2 :
  Permutation hs1 hs2 ->
  sameParams ps1 ps2 ->
  let r1 := {| params := ps1; headers := hs1; method := m; url := u |} in
  let r2 := {| params := ps2; headers := hs2; method := m; url := u |} in
  mapOk signature (createContext toLowerCase credentials r1 options)
  = mapOk signature (createContext toLowerCase credentials r2 options)
  /\ mapOk canonicalRequest (createContext toLowerCase credentials r1 options)
     = mapOk canonicalRequest (createContext toLowerCase credentials r2 options).
Proof.
  intros Hh Hp r1 r2.
  assert (Eq : canonicalizeSearchParams toLowerCase ps1
               = canonicalizeSearchParams toLowerCase ps2).
  { destruct ps1 as [x|], ps2 as [y|]; cbn in Hp; try contradiction;
      [|reflexivity].
    rewrite !canonicalizeSearchParams_entries.
    assert (Hk : Permutation (keptParams toLowerCase x) (keptParams toLowerCase y))
      by (apply filter_Permutation; exact Hp).
    rewrite (forallb_Permutation _ _ _ Hk).
    rewrite (sort_order_invariant _ _ (Permutation_map queryEntry Hk)).
    reflexivity. }
  assert (Eh : mapOk res_canonicalizedHeaders
                 (canonicalizeHeaders toLowerCase hs1 (headerNamesToSign options))
               = mapOk res_canonicalizedHeaders
                   (canonicalizeHeaders toLowerCase hs2 (headerNamesToSign options))).
  { assert (G : forall names,
        mapOk res_canonicalizedHeaders
          (canonicalizeHeaders toLowerCase hs1 (Some names))
        = mapOk res_canonicalizedHeaders
            (canonicalizeHeaders toLowerCase hs2 (Some names))).
    { intros names. rewrite !canonicalizeHeaders_entries. cbn zeta.
      assert (Hs : Permutation (filter (toSignb toLowerCase names) hs1)
                               (filter (toSignb toLowerCase names) hs2))
        by (apply filter_Permutation; exact Hh).
      rewrite (forallb_Permutation _ _ _ Hs).
      destruct (forallb _ _); [|reflexivity]. cbn [mapOk res_canonicalizedHeaders].
      rewrite (sort_order_invariant _ _
                 (Permutation_map (headerEntry toLowerCase) Hs)).
      reflexivity. }
    destruct (headerNamesToSign options) as [names|]; [apply G|].
    apply (G DEFAULT_HEADERS_TO_SIGN). }
  unfold createContext, r1, r2. cbn [params headers method url].
  rewrite Eq.
  destruct (canonicalizeHeaders toLowerCase hs1 (headerNamesToSign options)) as [h1|e1],
           (canonicalizeHeaders toLowerCase hs2 (headerNamesToSign options)) as [h2|e2];
    cbn [mapOk] in Eh; try discriminate.
  - apply Ok_inj in Eh. cbn [bind].
    destruct (canonicalizeSearchParams toLowerCase ps2) as [q|e];
      cbn [bind mapOk signature canonicalRequest]; [|split; reflexivity].
    rewrite Eh. split; reflexivity.
  - cbn [bind mapOk]. split; exact Eh.
Qed.

(** ** The claims on the token *)

Lemma createContext_unfold credentials request options :
  createContext toLowerCase credentials request options
  = let* h := canonicalizeHeaders toLowerCase (headers request)
                (headerNamesToSign options) in
    let* query := canonicalizeSearchParams toLowerCase (params request) in
    let prefix := js "bce-auth-v1/" ++ ak credentials ++ js "/"
                     ++ timestamp options ++ js "/"
                     ++ number_toString (orElse (expireInSeconds options) (Integer 1800 eq_refl)) in
    let request_ := method request ++ LF ++ url request ++ LF ++ query ++ LF
                      ++ res_canonicalizedHeaders h in
    Ok {| canonicalRequest := request_;
          signedHeaderNames := res_signedHeaderNames h;
          authStringPrefix := prefix;
          signingKey := hash (sk credentials) prefix;
          signature := hash (hash (sk credentials) prefix) request_ |}.
Proof. reflexivity. Qed.

Lemma createContext_returns credentials request options :
  returns (createContext toLowerCase credentials request options)
  = requestWellFormed toLowerCase request options.
Proof.
  rewrite createContext_unfold. unfold requestWellFormed.
  assert (Hh : returns (canonicalizeHeaders toLowerCase (headers request)
                          (headerNamesToSign options))
               = forallb (headerWellFormed toLowerCase)
                   (filter (toSignb toLowerCase
                              match headerNamesToSign options with
                              | Some l => l
                              | None => DEFAULT_HEADERS_TO_SIGN
                              end) (headers request))).
  { destruct (headerNamesToSign options) as [names|].
    - rewrite canonicalizeHeaders_entries. cbn zeta.
      destruct (forallb _ _); reflexivity.
    - change (canonicalizeHeaders toLowerCase (headers request) None)
        with (canonicalizeHeaders toLowerCase (headers request)
                (Some DEFAULT_HEADERS_TO_SIGN)).
      rewrite canonicalizeHeaders_entries. cbn zeta.
      destruct (forallb _ _); reflexivity. }
  rewrite <- Hh.
  destruct (canonicalizeHeaders toLowerCase (headers request)
              (headerNamesToSign options)) as [h|e]; [|reflexivity].
  cbn [bind returns andb].
  destruct (params request) as [ps|]; [|reflexivity].
  rewrite canonicalizeSearchParams_entries.
  destruct (forallb (fun kv => wellFormed (snd kv)) (keptParams toLowerCase ps));
    reflexivity.
Qed.

Lemma authorize_returns credentials request options :
  returns (authorize toLowerCase credentials request options)
  = requestWellFormed toLowerCase request options.
Proof.
  rewrite <- (createContext_returns credentials). unfold authorize.
  destruct (createContext toLowerCase credentials request options); reflexivity.
Qed.

(** C1: authorize returns a token for every request that holds no lone
    surrogate where it is signed, and the token it returns is the prefix,
    made of the literal bce-auth-v1, the access key, the timestamp and the
    expiry, then the signed header names joined by semicolons, then the
    signature of 64 hexadecimal digits, the three separated by slashes. *)
Theorem authorize_token_shape credentials request options :
  returns (authorize toLowerCase credentials request options)
  = requestWellFormed toLowerCase request options
  /\ forall token,
      authorize toLowerCase credentials request options = Ok token ->
      exists context h,
        createContext toLowerCase credentials request options = Ok context
        /\ canonicalizeHeaders toLowerCase (headers request)
             (headerNamesToSign options) = Ok h
        /\ signedHeaderNames context = res_signedHeaderNames h
        /\ authStringPrefix context
           = js "bce-auth-v1/" ++ ak credentials ++ js "/" ++ timestamp options
               ++ js "/" ++ number_toString (orElse (expireInSeconds options) (Integer 1800 eq_refl))
        /\ List.length (signature context) = 64%nat
        /\ token = authStringPrefix context ++ js "/"
                     ++ join (js ";") (signedHeaderNames context) ++ js "/"
                     ++ signature context.
Proof.
  split; [apply authorize_returns|]. intros token.
  unfold authorize. rewrite createContext_unfold.
  destruct (canonicalizeHeaders toLowerCase (headers request)
              (headerNamesToSign options)) as [h|e]; [|discriminate].
  destruct (canonicalizeSearchParams toLowerCase (params request)) as [q|e];
    [|discriminate].
  cbn [bind]. cbn zeta. intros H. apply Ok_inj in H. subst token.
  eexists. exists h. split; [reflexivity|].
  cbn [signedHeaderNames authStringPrefix signature].
  do 3 (split; [reflexivity|]).
  split; [apply hash_length | reflexivity].
Qed.

(** C2: createContext returns for every request that holds no lone
    surrogate where it is signed; the canonical request is the method, the
    url, the canonical query and the canonical headers joined by newlines;
    the signing key is the hexadecimal HMAC-SHA256 of the prefix under the
    secret key, and the signature, the one the token ends with, is the
    hexadecimal HMAC-SHA256 of the canonical request under the signing
    key. *)
Theorem createContext_hmac_chain credentials request options :
  returns (createContext toLowerCase credentials request options)
  = requestWellFormed toLowerCase request options
  /\ forall context,
      createContext toLowerCase credentials request options = Ok context ->
      exists h query,
        canonicalizeHeaders toLowerCase (headers request)
          (headerNamesToSign options) = Ok h
        /\ canonicalizeSearchParams toLowerCase (params request) = Ok query
        /\ canonicalRequest context
           = join LF [method request; url request; query;
                      res_canonicalizedHeaders h]
        /\ canonicalRequest context
           = method request ++ LF ++ url request ++ LF ++ query ++ LF
               ++ res_canonicalizedHeaders h
        /\ signingKey context
           = hexString (hmac_sha256 (utf8Write (sk credentials))
                                    (utf8Write (authStringPrefix context)))
        /\ signature context
           = hexString (hmac_sha256 (utf8Write (signingKey context))
                                    (utf8Write (canonicalRequest context)))
        /\ authorize toLowerCase credentials request options
           = Ok (authStringPrefix context ++ js "/"
                 ++ join (js ";") (signedHeaderNames context) ++ js "/"
                 ++ signature context).
Proof.
  split; [apply createContext_returns|]. intros context.
  intros H. unfold authorize. rewrite H. revert H.
  rewrite createContext_unfold.
  destruct (canonicalizeHeaders toLowerCase (headers request)
              (headerNamesToSign options)) as [h|e]; [|discriminate].
  destruct (canonicalizeSearchParams toLowerCase (params request)) as [q|e];
    [|discriminate].
  cbn [bind]. cbn zeta. intros H. apply Ok_inj in H. subst context.
  exists h, q. repeat split.
Qed.

Lemma decimal_negative n : (n < 0)%Z -> decimal n = js "-" ++ decimal (- n).
Proof. destruct n as [|p|p]; intros H; try lia. reflexivity. Qed.

(** C4, as amended: with expireInSeconds absent, 0 or NaN the context,
    prefix and signature included, and the token are those of an explicit
    1800; every other number, a negative one included, is written in the
    prefix as it prints: an integer up to 2^53 - 1 in magnitude as its
    decimal digits, after a minus sign when it is negative. *)
Theorem expire_default_absent_or_zero credentials request options :
  (forall safe,
     expireInSeconds options = None
     \/ expireInSeconds options = Some (Integer 0 safe)
     \/ expireInSeconds options = Some NaN ->
     createContext toLowerCase credentials request options
     = createContext toLowerCase credentials request
         (withExpire options (Some (Integer 1800 eq_refl)))
     /\ authorize toLowerCase credentials request options
        = authorize toLowerCase credentials request
            (withExpire options (Some (Integer 1800 eq_refl))))
  /\ (forall context,
        createContext toLowerCase credentials request options = Ok context ->
        authStringPrefix context
        = js "bce-auth-v1/" ++ ak credentials ++ js "/" ++ timestamp options
            ++ js "/"
            ++ match expireInSeconds options with
               | Some (Integer n _) => if (n =? 0)%Z then js "1800" else decimal n
               | Some (Printed text) => text
               | Some NaN => js "1800"
               | None => js "1800"
               end)
  /\ (forall n, (n < 0)%Z -> decimal n = js "-" ++ decimal (- n)).
Proof.
  split; [|split; [|exact decimal_negative]].
  - intros safe E.
    assert (C : createContext toLowerCase credentials request options
                = createContext toLowerCase credentials request
                    (withExpire options (Some (Integer 1800 eq_refl)))).
    { rewrite !createContext_unfold. unfold withExpire.
      cbn [timestamp headerNamesToSign expireInSeconds].
      destruct E as [E|[E|E]]; rewrite E; reflexivity. }
    split; [exact C|]. unfold authorize. rewrite C. reflexivity.
  - intros context. rewrite createContext_unfold.
    destruct (canonicalizeHeaders toLowerCase (headers request)
                (headerNamesToSign options)) as [h|e]; [|discriminate].
    destruct (canonicalizeSearchParams toLowerCase (params request)) as [q|e];
      [|discriminate].
    cbn [bind]. cbn zeta. intros H. apply Ok_inj in H. subst context.
    cbn [authStringPrefix]. do 5 f_equal.
    destruct (expireInSeconds options) as [[n safe| |text]|]; try reflexivity.
    cbn [orElse toBoolean]. destruct (n =? 0)%Z; reflexivity.
Qed.

Lemma createContextWith_nodeHmac credentials request options :
  createContextWith toLowerCase nodeHmac credentials request options
  = createContext toLowerCase credentials request options.
Proof.
  unfold createContextWith, createContext, nodeHmac.
  destruct (canonicalizeHeaders toLowerCase (headers request)
              (headerNamesToSign options)) as [h|e]; [|reflexivity].
  destruct (canonicalizeSearchParams toLowerCase (params request)) as [q|e];
    reflexivity.
Qed.

(** C9, as amended: when the HMAC of the runtime fails, for the signing
    key or for the signature, authorize fails with that very error and
    returns no token; a token is returned only when both HMACs returned.
    An empty secret key is no such failure: with the HMAC of node:crypto
    authorize signs under the empty key and returns the token. *)
Theorem hmac_failure_propagates hmac credentials request options h query :
  canonicalizeHeaders toLowerCase (headers request) (headerNamesToSign options)
  = Ok h ->
  canonicalizeSearchParams toLowerCase (params request) = Ok query ->
  let prefix :=
    js "bce-auth-v1/" ++ ak credentials ++ js "/" ++ timestamp options ++ js "/"
       ++ number_toString (orElse (expireInSeconds options) (Integer 1800 eq_refl)) in
  let canonical :=
    method request ++ LF ++ url request ++ LF ++ query ++ LF
       ++ res_canonicalizedHeaders h in
  (forall e, hmac (sk credentials) prefix = Throw e ->
     authorizeWith toLowerCase hmac credentials request options = Throw e)
  /\ (forall key e,
        hmac (sk credentials) prefix = Ok key ->
        hmac key canonical = Throw e ->
        authorizeWith toLowerCase hmac credentials request options = Throw e)
  /\ (forall token,
        authorizeWith toLowerCase hmac credentials request options = Ok token ->
        exists key sig,
          hmac (sk credentials) prefix = Ok key
          /\ hmac key canonical = Ok sig
          /\ token = prefix ++ js "/" ++ join (js ";") (res_signedHeaderNames h)
                       ++ js "/" ++ sig)
  /\ authorizeWith toLowerCase nodeHmac credentials request options
     = authorize toLowerCase credentials request options
  /\ authorize toLowerCase (withSecretKey credentials []) request options
     = Ok (prefix ++ js "/" ++ join (js ";") (res_signedHeaderNames h) ++ js "/"
           ++ hexString
                (hmac_sha256
                   (utf8Write (hexString (hmac_sha256 [] (utf8Write prefix))))
                   (utf8Write canonical))).
Proof.
  intros Hh Hq prefix canonical.
  assert (U : authorizeWith toLowerCase hmac credentials request options
              = let* key := hmac (sk credentials) prefix in
                let* sig := hmac key canonical in
                Ok (prefix ++ js "/" ++ join (js ";") (res_signedHeaderNames h)
                    ++ js "/" ++ sig)).
  { subst prefix canonical.
    unfold authorizeWith, createContextWith. rewrite Hh, Hq.
    cbn [bind join]. cbn zeta.
    destruct (hmac (sk credentials) _) as [key|e]; [|reflexivity].
    cbn [bind]. destruct (hmac key _) as [sig|e]; reflexivity. }
  split; [intros e He; rewrite U, He; reflexivity|].
  split; [intros key e Hk He; rewrite U, Hk; cbn [bind]; rewrite He; reflexivity|].
  split.
  { intros token. rewrite U.
    destruct (hmac (sk credentials) prefix) as [key|e] eqn:Hk; [|discriminate].
    cbn [bind]. destruct (hmac key canonical) as [sig|e] eqn:Hs; [|discriminate].
    cbn [bind]. intros H. apply Ok_inj in H. subst token.
    exists key, sig. repeat split; first [reflexivity | assumption]. }
  split.
  { unfold authorizeWith, authorize. rewrite createContextWith_nodeHmac.
    reflexivity. }
  unfold authorize. rewrite createContext_unfold. unfold withSecretKey.
  cbn [ak sk]. rewrite Hh, Hq. reflexivity.
Qed.

End SignerProperties.

(** * Worked examples *)

(** The token of the worked request, written out. *)
Lemma token0_digits :
  token0 = js "bce-auth-v1/AK/2015-04-27T08:23:49Z/1800/host/8fccaa6779b00964bf32a694073a973189deb82587495823e098263c5c302751".
Proof. vm_compute. reflexivity. Qed.

Lemma authorize_token_shape_golden :
  authorize toLowerCaseASCII credentials0 request0 options0 = Ok token0
  /\ exists context h,
       createContext toLowerCaseASCII credentials0 request0 options0 = Ok context
       /\ canonicalizeHeaders toLowerCaseASCII (headers request0)
            (headerNamesToSign options0) = Ok h
       /\ signedHeaderNames context = res_signedHeaderNames h
       /\ authStringPrefix context
          = js "bce-auth-v1/" ++ ak credentials0 ++ js "/" ++ timestamp options0
              ++ js "/" ++ number_toString (orElse (expireInSeconds options0) (Integer 1800 eq_refl))
       /\ List.length (signature context) = 64%nat
       /\ token0 = authStringPrefix context ++ js "/"
                     ++ join (js ";") (signedHeaderNames context) ++ js "/"
                     ++ signature context.
Proof.
  assert (H : authorize toLowerCaseASCII credentials0 request0 options0 = Ok token0)
    by (cbv -[hash]; reflexivity).
  split; [exact H|].
  exact (proj2 (authorize_token_shape toLowerCaseASCII credentials0 request0
                  options0) token0 H).
Defined.

Lemma createContext_hmac_chain_golden :
  createContext toLowerCaseASCII credentials0 request0 options0 = Ok context0
  /\ exists h query,
       canonicalizeHeaders toLowerCaseASCII (headers request0)
         (headerNamesToSign options0) = Ok h
       /\ canonicalizeSearchParams toLowerCaseASCII (params request0) = Ok query
       /\ canonicalRequest context0
          = join LF [method request0; url request0; query;
                     res_canonicalizedHeaders h]
       /\ canonicalRequest context0
          = method request0 ++ LF ++ url request0 ++ LF ++ query ++ LF
              ++ res_canonicalizedHeaders h
       /\ signingKey context0
          = hexString (hmac_sha256 (utf8Write (sk credentials0))
                                   (utf8Write (authStringPrefix context0)))
       /\ signature context0
          = hexString (hmac_sha256 (utf8Write (signingKey context0))
                                   (utf8Write (canonicalRequest context0)))
       /\ authorize toLowerCaseASCII credentials0 request0 options0
          = Ok (authStringPrefix context0 ++ js "/"
                ++ join (js ";") (signedHeaderNames context0) ++ js "/"
                ++ signature context0).
Proof.
  assert (H : createContext toLowerCaseASCII credentials0 request0 options0
              = Ok context0) by (cbv -[hash]; reflexivity).
  split; [exact H|].
  exact (proj2 (createContext_hmac_chain toLowerCaseASCII credentials0 request0
                  options0) context0 H).
Defined.

(** C3 as stated fails: a key with a space is emitted as it stands, where
    the claim has it percent-encoded; and with keys left as they are the
    order is the one of UTF-16 code units, in which U+10000, written
    D800 DC00, comes before U+E000, though its UTF-8 octets come after. *)
Lemma canonicalizeSearchParams_key_not_encoded :
  canonicalizeSearchParams toLowerCaseASCII (Some [(js "a b", js "c d")])
  = Ok (js "a b=c%20d")
  /\ canonicalizeParams_encodedKeys toLowerCaseASCII [(js "a b", js "c d")]
     = js "a%20b=c%20d"
  /\ js "a b=c%20d" <> js "a%20b=c%20d"
  /\ canonicalizeSearchParams toLowerCaseASCII
       (Some [([57344], js "1"); ([55296; 56320], js "2")])
     = Ok ([55296; 56320] ++ js "=2&" ++ [57344] ++ js "=1")
  /\ str_leb (utf8Write ([57344] ++ js "=1"))
             (utf8Write ([55296; 56320] ++ js "=2")) = true.
Proof.
  split; [vm_compute; reflexivity|].
  split; [vm_compute; reflexivity|].
  split; [vm_compute; discriminate|].
  split; vm_compute; reflexivity.
Qed.

(** C4 as stated fails: a negative expireInSeconds is written in the
    prefix as it is, where the claim has 1800. *)
Lemma negative_expire_not_defaulted :
  mapOk authStringPrefix
    (createContext toLowerCaseASCII credentials0 request0
       (withExpire options0 (Some (Integer (-1) eq_refl))))
  = Ok (js "bce-auth-v1/AK/2015-04-27T08:23:49Z/-1")
  /\ mapOk authStringPrefix
       (createContext toLowerCaseASCII credentials0 request0
          (withExpire options0 (Some (Integer 1800 eq_refl))))
     = Ok (js "bce-auth-v1/AK/2015-04-27T08:23:49Z/1800")
  /\ expire_positiveOrDefault (Some (Integer (-1) eq_refl)) = Integer 1800 eq_refl
  /\ js "bce-auth-v1/AK/2015-04-27T08:23:49Z/-1"
     <> js "bce-auth-v1/AK/2015-04-27T08:23:49Z/1800".
Proof.
  split; [cbv -[hash]; reflexivity|].
  split; [cbv -[hash]; reflexivity|].
  split; [reflexivity|].
  vm_compute. discriminate.
Qed.

Lemma expire_default_absent_or_zero_golden :
  createContext toLowerCaseASCII credentials0 request0 options0 = Ok context0
  /\ createContext toLowerCaseASCII credentials0 request0
       (withExpire options0 (Some (Integer 1800 eq_refl))) = Ok context0
  /\ createContext toLowerCaseASCII credentials0 request0
       (withExpire options0 (Some (Integer 0 eq_refl))) = Ok context0
  /\ createContext toLowerCaseASCII credentials0 request0
       (withExpire options0 (Some NaN)) = Ok context0
  /\ authorize toLowerCaseASCII credentials0 request0 options0
     = authorize toLowerCaseASCII credentials0 request0
         (withExpire options0 (Some (Integer 1800 eq_refl)))
  /\ authStringPrefix context0 = js "bce-auth-v1/AK/2015-04-27T08:23:49Z/1800".
Proof.
  assert (H : createContext toLowerCaseASCII credentials0 request0 options0
              = Ok context0) by (cbv -[hash]; reflexivity).
  pose proof (expire_default_absent_or_zero toLowerCaseASCII credentials0 request0
                options0) as [T1 [T2 _]].
  pose proof (expire_default_absent_or_zero toLowerCaseASCII credentials0 request0
                (withExpire options0 (Some (Integer 0 eq_refl)))) as [Z1 _].
  pose proof (expire_default_absent_or_zero toLowerCaseASCII credentials0 request0
                (withExpire options0 (Some NaN))) as [N1 _].
  destruct (T1 eq_refl (or_introl eq_refl)) as [C A].
  destruct (Z1 eq_refl (or_intror (or_introl eq_refl))) as [CZ _].
  destruct (N1 eq_refl (or_intror (or_intror eq_refl))) as [CN _].
  split; [exact H|].
  split; [rewrite <- C; exact H|].
  split; [rewrite CZ; exact (eq_trans (eq_sym C) H)|].
  split; [rewrite CN; exact (eq_trans (eq_sym C) H)|].
  split; [exact A|].
  exact (T2 context0 H).
Defined.

(** Two orders of the same headers and parameters: one signature, and the
    signed names in the order of each input. *)
Lemma signature_order_invariant_swapped :
  Permutation headersAB headersBA
  /\ sameParams (Some paramsAB) (Some paramsBA)
  /\ (mapOk signature
        (createContext toLowerCaseASCII credentials0 requestAB options0)
      = mapOk signature
          (createContext toLowerCaseASCII credentials0 requestBA options0)
      /\ mapOk canonicalRequest
           (createContext toLowerCaseASCII credentials0 requestAB options0)
         = mapOk canonicalRequest
             (createContext toLowerCaseASCII credentials0 requestBA options0))
  /\ mapOk signedHeaderNames
       (createContext toLowerCaseASCII credentials0 requestAB options0)
     = Ok [js "host"; js "x-bce-date"]
  /\ mapOk signedHeaderNames
       (createContext toLowerCaseASCII credentials0 requestBA options0)
     = Ok [js "x-bce-date"; js "host"].
Proof.
  assert (Hh : Permutation headersAB headersBA) by apply perm_swap.
  assert (Hp : sameParams (Some paramsAB) (Some paramsBA))
    by (cbn; apply perm_swap).
  split; [exact Hh|]. split; [exact Hp|].
  split.
  - exact (signature_order_invariant toLowerCaseASCII credentials0 options0
             (js "GET") (js "/v1/object") headersAB headersBA
             (Some paramsAB) (Some paramsBA) Hh Hp).
  - split; cbv -[hash]; reflexivity.
Defined.

Lemma normalize_printable_roundtrip_marks :
  forallb isPrintable printable0 = true
  /\ (exists out, normalize printable0 = Ok out /\ percentDecode out = printable0)
  /\ normalize printable0
     = Ok (js "Az09%20-_.~%21%27%28%29%2A%25%2F%2B%3D%26%3A%3B%2C%3F%23%5B%5D%40%24").
Proof.
  assert (H : forallb isPrintable printable0 = true) by reflexivity.
  split; [exact H|].
  split; [exact (proj1 (normalize_printable_roundtrip printable0 H))|].
  vm_compute. reflexivity.
Defined.

(** C9 as stated fails: with an empty secret key authorize returns a
    token, signed under the HMAC of the empty key. *)
Lemma empty_secret_key_signs :
  authorize toLowerCaseASCII (withSecretKey credentials0 []) request0 options0
  = Ok tokenEmptyKey
  /\ tokenEmptyKey
     = js "bce-auth-v1/AK/2015-04-27T08:23:49Z/1800/host/61e907f7983e077821703a78def2405cd406c7e8d5d1f40f99a769d12e3d7a09".
Proof.
  split; [cbv -[hash]; reflexivity|].
  vm_compute. reflexivity.
Qed.

(** An HMAC that refused the empty key would make authorize throw its
    error; the HMAC of node:crypto does not. *)
Lemma hmac_failure_propagates_refusal :
  canonicalizeHeaders toLowerCaseASCII (headers request0)
    (headerNamesToSign options0)
  = Ok {| res_signedHeaderNames := [js "host"];
          res_canonicalizedHeaders := js "host:bj.bcebos.com" |}
  /\ canonicalizeSearchParams toLowerCaseASCII (params request0) = Ok []
  /\ authorizeWith toLowerCaseASCII hmacRefusingEmptyKey
       (withSecretKey credentials0 []) request0 options0
     = Throw (Error (js "empty key"))
  /\ authorizeWith toLowerCaseASCII nodeHmac
       (withSecretKey credentials0 []) request0 options0
     = authorize toLowerCaseASCII (withSecretKey credentials0 []) request0 options0.
Proof.
  assert (Hh : canonicalizeHeaders toLowerCaseASCII (headers request0)
                 (headerNamesToSign options0)
               = Ok {| res_signedHeaderNames := [js "host"];
                       res_canonicalizedHeaders := js "host:bj.bcebos.com" |})
    by (vm_compute; reflexivity).
  assert (Hq : canonicalizeSearchParams toLowerCaseASCII (params request0) = Ok [])
    by reflexivity.
  split; [exact Hh|]. split; [exact Hq|].
  split.
  - exact (proj1 (hmac_failure_propagates toLowerCaseASCII hmacRefusingEmptyKey
                    (withSecretKey credentials0 []) request0 options0 _ _ Hh Hq)
             (Error (js "empty key")) eq_refl).
  - exact (proj1 (proj2 (proj2 (proj2
             (hmac_failure_propagates toLowerCaseASCII hmacRefusingEmptyKey
                (withSecretKey credentials0 []) request0 options0 _ _ Hh Hq))))).
Defined.

Lemma empty_headerNamesToSign_kept_host :
  toLowerCaseASCII (js "Host") = js "host"
  /\ trim (js "bj.bcebos.com") <> []
  /\ wellFormed (trim (js "bj.bcebos.com")) = true
  /\ canonicalizeHeaders toLowerCaseASCII headersAB (Some [])
     = (let signed := filter (hasBcePrefix toLowerCaseASCII) headersAB in
        if forallb (headerWellFormed toLowerCaseASCII) signed
        then Ok {| res_signedHeaderNames :=
                     List.map (fun e => toLowerCaseASCII (fst e)) signed;
                   res_canonicalizedHeaders :=
                     join LF (sort (List.map (headerEntry toLowerCaseASCII) signed)) |}
        else Throw URIError)
  /\ canonicalizeHeaders toLowerCaseASCII headersAB None
     = canonicalizeHeaders toLowerCaseASCII headersAB (Some DEFAULT_HEADERS_TO_SIGN)
  /\ mapOk res_signedHeaderNames
       (canonicalizeHeaders toLowerCaseASCII [(js "Host", js "bj.bcebos.com")]
          (Some [])) = Ok []
  /\ mapOk res_signedHeaderNames
       (canonicalizeHeaders toLowerCaseASCII [(js "Host", js "bj.bcebos.com")] None)
     = Ok [js "host"].
Proof.
  assert (H1 : toLowerCaseASCII (js "Host") = js "host") by reflexivity.
  assert (H2 : trim (js "bj.bcebos.com") <> []) by (vm_compute; discriminate).
  assert (H3 : wellFormed (trim (js "bj.bcebos.com")) = true) by reflexivity.
  split; [exact H1|]. split; [exact H2|]. split; [exact H3|].
  exact (empty_headerNamesToSign_kept toLowerCaseASCII headersAB
           (js "bj.bcebos.com") H1 H2 H3).
Defined.

(** With the explicit empty list only the x-bce- header of the worked
    request is signed; with the option absent the Host header is too. *)
Example empty_list_signs_prefix_only :
  mapOk res_signedHeaderNames
    (canonicalizeHeaders toLowerCaseASCII headersAB (Some []))
  = Ok [js "x-bce-date"]
  /\ mapOk res_signedHeaderNames
       (canonicalizeHeaders toLowerCaseASCII headersAB None)
     = Ok [js "host"; js "x-bce-date"].
Proof. split; vm_compute; reflexivity. Qed.

(** Authorization in any case is dropped from the query string. *)
Example authorization_dropped_any_case :
  canonicalizeSearchParams toLowerCaseASCII
    (Some [(js "b", js "2"); (js "Authorization", js "x");
           (js "AUTHORIZATION", js "y"); (js "a", js "1 2")])
  = Ok (js "a=1%202&b=2").
Proof. vm_compute. reflexivity. Qed.

(** X-Bce-Date is signed by its prefix, a blank Content-Type is not, and
    a header neither listed nor prefixed is not. *)
Example prefix_signed_blank_skipped :
  canonicalizeHeaders toLowerCaseASCII
    [(js "X-Bce-Date", js " 2015-04-27T08:23:49Z "); (js "Content-Type", js "   ");
     (js "Host", js "bj.bcebos.com"); (js "Accept", js "text/plain")] None
  = Ok {| res_signedHeaderNames := [js "x-bce-date"; js "host"];
          res_canonicalizedHeaders :=
            js "host:bj.bcebos.com" ++ LF
               ++ js "x-bce-date:2015-04-27T08%3A23%3A49Z" |}.
Proof. vm_compute. reflexivity. Qed.

(** A lone surrogate in a signed value makes authorize throw. *)
Example lone_surrogate_throws :
  authorize toLowerCaseASCII credentials0
    (withHeaders request0 [(js "Host", [55357])]) options0
  = Throw URIError.
Proof. vm_compute. reflexivity. Qed.

(** * Further properties *)

(** ** normalize *)

(** Induction on a string that may step over two code units at once. *)
Lemma jsstring_pair_ind (P : list N -> Prop) :
  P [] ->
  (forall c t, P t -> (forall d t', t = d :: t' -> P t') -> P (c :: t)) ->
  forall s : list N, P s.
Proof.
  intros Hnil Hstep s.
  assert (H : P s /\ (forall d t', s = d :: t' -> P t')).
  { induction s as [|c t [IH1 IH2]].
    - split; [exact Hnil | intros d t' E; discriminate].
    - split; [apply Hstep; assumption|].
      intros d t' E. injection E as _ <-. exact IH1. }
  exact (proj1 H).
Qed.

Lemma utf8_octets cp : cp < 1114112 -> Forall (fun o => o < 256) (utf8 cp).
Proof.
  intros H. unfold utf8.
  destruct (N.ltb_spec cp 128); [repeat constructor; lia|].
  destruct (N.ltb_spec cp 2048).
  { assert (cp / 64 < 32) by (apply N.Div0.div_lt_upper_bound; lia).
    assert (cp mod 64 < 64) by (apply N.mod_lt; lia).
    repeat constructor; lia. }
  destruct (N.ltb_spec cp 65536).
  { assert (cp / 4096 < 16) by (apply N.Div0.div_lt_upper_bound; lia).
    assert ((cp / 64) mod 64 < 64) by (apply N.mod_lt; lia).
    assert (cp mod 64 < 64) by (apply N.mod_lt; lia).
    repeat constructor; lia. }
  assert (cp / 262144 < 5) by (apply N.Div0.div_lt_upper_bound; lia).
  assert ((cp / 4096) mod 64 < 64) by (apply N.mod_lt; lia).
  assert ((cp / 64) mod 64 < 64) by (apply N.mod_lt; lia).
  assert (cp mod 64 < 64) by (apply N.mod_lt; lia).
  repeat constructor; lia.
Qed.

Lemma surrogatePair_bound c d :
  isLeadSurrogate c = true -> isTrailSurrogate d = true ->
  surrogatePair c d < 1114112.
Proof.
  unfold isLeadSurrogate, isTrailSurrogate, surrogatePair.
  rewrite !andb_true_iff, !N.leb_le. intros [H1 H2] [H3 H4]. nia.
Qed.

Lemma hexDigitUpper_safe d : d < 16 -> isSafe (hexDigitUpper d) = true.
Proof.
  intros H. unfold isSafe, isUnreserved, isAlnum, hexDigitUpper.
  cmp_cases; reflexivity.
Qed.

Lemma percentAll_safe l :
  Forall (fun o => o < 256) l -> forallb isSafe (percentAll l) = true.
Proof.
  induction 1 as [|o l Ho _ IH]; [reflexivity|].
  change (percentAll (o :: l)) with (percent o ++ percentAll l).
  rewrite forallb_app, IH, andb_true_r. unfold percent. cbn [forallb].
  rewrite !hexDigitUpper_safe.
  - reflexivity.
  - apply N.mod_lt. lia.
  - apply N.Div0.div_lt_upper_bound. lia.
Qed.

Lemma escape_safe s :
  forallb isCodeUnit s = true -> forallb isSafe (escape s) = true.
Proof.
  induction s as [|c t IHt IHt'] using jsstring_pair_ind; [reflexivity|].
  cbn [forallb escape]. rewrite andb_true_iff. unfold isCodeUnit at 1.
  rewrite N.ltb_lt. intros [Hc Ht].
  destruct (isUnreserved c) eqn:Hu.
  { cbn [forallb]. unfold isSafe at 1. rewrite Hu. exact (IHt Ht). }
  assert (Hone : forallb isSafe (percentAll (utf8 c) ++ escape t) = true).
  { rewrite forallb_app, (IHt Ht), andb_true_r.
    apply percentAll_safe, utf8_octets. lia. }
  destruct (isLeadSurrogate c) eqn:Hl; [|exact Hone].
  destruct t as [|d t'].
  { apply percentAll_safe, utf8_octets. lia. }
  destruct (isTrailSurrogate d) eqn:Hd; [|exact Hone].
  cbn [forallb] in Ht. apply andb_true_iff in Ht. destruct Ht as [_ Ht'].
  rewrite forallb_app, (IHt' d t' eq_refl Ht'), andb_true_r.
  apply percentAll_safe, utf8_octets, surrogatePair_bound; assumption.
Qed.

Lemma unreserved_facts c :
  isUnreserved c = true ->
  c < 128 /\ (c =? 37) = false
  /\ isLeadSurrogate c = false /\ isTrailSurrogate c = false.
Proof.
  unfold isUnreserved, isAlnum, isLeadSurrogate, isTrailSurrogate.
  intros H. cmp_cases; repeat split; try lia; reflexivity.
Qed.

Lemma unreserved_wellFormed s : forallb isUnreserved s = true -> wellFormed s = true.
Proof.
  induction s as [|c t IH]; [reflexivity|].
  cbn [forallb wellFormed]. rewrite andb_true_iff. intros [Hc Ht].
  destruct (unreserved_facts c Hc) as [_ [_ [Hl Htr]]].
  rewrite Hl, Htr. apply (IH Ht).
Qed.

Lemma percentDecode_percentAll l rest :
  Forall (fun o => o < 256) l ->
  percentDecode (percentAll l ++ rest) = l ++ percentDecode rest.
Proof.
  induction 1 as [|o l Ho _ IH]; [reflexivity|].
  change (percentAll (o :: l)) with (percent o ++ percentAll l).
  rewrite <- app_assoc, percentDecode_percent by exact Ho.
  rewrite IH. reflexivity.
Qed.

Lemma escape_decode s :
  wellFormed s = true -> forallb isCodeUnit s = true ->
  percentDecode (escape s) = utf8Write s.
Proof.
  induction s as [|c t IHt IHt'] using jsstring_pair_ind; [reflexivity|].
  cbn [forallb escape wellFormed utf8Write]. intros Hwf Hcu.
  apply andb_true_iff in Hcu. destruct Hcu as [Hc Ht].
  unfold isCodeUnit in Hc. apply N.ltb_lt in Hc.
  destruct (isUnreserved c) eqn:Hu.
  { destruct (unreserved_facts c Hu) as [Hlt [Hp [Hl Htr]]].
    rewrite Hl, Htr in *. cbn [negb andb] in Hwf.
    cbn [percentDecode]. rewrite Hp, (IHt Hwf Ht).
    unfold utf8. apply N.ltb_lt in Hlt. rewrite Hlt. reflexivity. }
  destruct (isLeadSurrogate c) eqn:Hl.
  - destruct t as [|d t']; [discriminate|].
    apply andb_true_iff in Hwf. destruct Hwf as [Hd Hwf]. rewrite Hd.
    cbn [forallb] in Ht. apply andb_true_iff in Ht. destruct Ht as [_ Ht'].
    rewrite percentDecode_percentAll
      by (apply utf8_octets, surrogatePair_bound; assumption).
    rewrite (IHt' d t' eq_refl Hwf Ht'). reflexivity.
  - apply andb_true_iff in Hwf. destruct Hwf as [Htr Hwf].
    apply negb_true_iff in Htr. rewrite Htr.
    rewrite percentDecode_percentAll by (apply utf8_octets; lia).
    rewrite (IHt Hwf Ht). reflexivity.
Qed.

Lemma wellFormed_app a b :
  wellFormed a = true ->
  wellFormed (a ++ b) = wellFormed b /\ escape (a ++ b) = escape a ++ escape b.
Proof.
  induction a as [|c t IHt IHt'] using jsstring_pair_ind;
    [split; reflexivity|].
  cbn [app wellFormed escape]. intros Hwf.
  destruct (isLeadSurrogate c) eqn:Hl.
  - destruct t as [|d t']; [discriminate|].
    apply andb_true_iff in Hwf. destruct Hwf as [Hd Hwf].
    destruct (IHt' d t' eq_refl Hwf) as [E1 E2].
    cbn [app]. rewrite Hd, E1, E2.
    split; [reflexivity|].
    destruct (isUnreserved c) eqn:Hu.
    + destruct (unreserved_facts c Hu) as [_ [_ [Hl' _]]]. congruence.
    + rewrite app_assoc. reflexivity.
  - apply andb_true_iff in Hwf. destruct Hwf as [Htr Hwf].
    destruct (IHt Hwf) as [E1 E2]. rewrite Htr, E1, E2.
    split; [reflexivity|].
    destruct (isUnreserved c); [reflexivity | apply app_assoc].
Qed.

Lemma percentAll_length l : List.length (percentAll l) = (3 * List.length l)%nat.
Proof.
  induction l as [|o l IH]; [reflexivity|].
  change (percentAll (o :: l)) with (percent o ++ percentAll l).
  rewrite length_app, IH. cbn [percent List.length]. lia.
Qed.

Lemma utf8_length cp : (1 <= List.length (utf8 cp))%nat.
Proof.
  unfold utf8. destruct (cp <? 128), (cp <? 2048), (cp <? 65536); cbn; lia.
Qed.

Lemma escape_length s :
  (List.length s <= List.length (escape s))%nat
  /\ (forallb isUnreserved s = false ->
      (List.length s < List.length (escape s))%nat).
Proof.
  induction s as [|c t IHt IHt'] using jsstring_pair_ind;
    [split; [apply le_n | discriminate]|].
  destruct IHt as [Hle Hlt]. cbn [forallb escape].
  destruct (isUnreserved c) eqn:Hu.
  { cbn [List.length andb]. split; [lia|]. intros H. specialize (Hlt H). lia. }
  cbn [andb].
  assert (Hone : (List.length (c :: t)
                  < List.length (percentAll (utf8 c) ++ escape t))%nat).
  { rewrite length_app, percentAll_length. pose proof (utf8_length c).
    cbn [List.length]. unfold jsstring, codeunit in *. lia. }
  destruct (isLeadSurrogate c) eqn:Hl; [|split; [apply Nat.lt_le_incl; exact Hone | intros _; exact Hone]].
  destruct t as [|d t'].
  { rewrite percentAll_length. pose proof (utf8_length c). cbn [List.length].
    split; [lia | intros _; lia]. }
  destruct (isTrailSurrogate d) eqn:Hd; [|split; [apply Nat.lt_le_incl; exact Hone | intros _; exact Hone]].
  destruct (IHt' d t' eq_refl) as [Hle' _].
  rewrite length_app, percentAll_length.
  pose proof (utf8_length (surrogatePair c d)). cbn [List.length].
  unfold jsstring, codeunit in *.
  split; [lia | intros _; lia].
Qed.

(** X1: normalize, which encodes with encodeURIComponent and then
    replaces the five characters the encoder leaves, is percent-encoding
    in one pass over the unreserved set A-Z a-z 0-9 - _ . ~; it throws
    URIError exactly on a string with a lone surrogate, and the empty
    string gives the empty string. *)
Theorem normalize_one_pass s :
  normalize s = (if wellFormed s then Ok (escape s) else Throw URIError)
  /\ (normalize s = Throw URIError <-> wellFormed s = false)
  /\ normalize [] = Ok [].
Proof.
  rewrite normalize_escape. split; [reflexivity|]. split; [|reflexivity].
  destruct (wellFormed s); split; intros H; try discriminate; reflexivity.
Qed.

(** X2: what normalize returns for a string of 16-bit code units holds
    only unreserved characters and percent signs: no line feed, space,
    exclamation mark, ampersand, apostrophe, parenthesis, asterisk, plus,
    slash, colon, semicolon or equals sign is left in it. *)
Theorem normalize_alphabet s out :
  forallb isCodeUnit s = true ->
  normalize s = Ok out ->
  forallb isSafe out = true
  /\ Forall (fun c => ~ In c out)
       [10; 32; 33; 38; 39; 40; 41; 42; 43; 47; 58; 59; 61].
Proof.
  intros Hcu. rewrite normalize_escape.
  destruct (wellFormed s); [|discriminate]. intros H. apply Ok_inj in H.
  subst out. pose proof (escape_safe s Hcu) as Hs. split; [exact Hs|].
  rewrite forallb_forall in Hs.
  repeat constructor; intros Hin; apply Hs in Hin; discriminate.
Qed.

(** X3: percent-decoding what normalize returns for a well-formed string
    of 16-bit code units gives the UTF-8 octets of the string. *)
Theorem normalize_decodes_to_utf8 s out :
  forallb isCodeUnit s = true ->
  normalize s = Ok out ->
  percentDecode out = utf8Write s.
Proof.
  intros Hcu. rewrite normalize_escape.
  destruct (wellFormed s) eqn:Hwf; [|discriminate]. intros H.
  apply Ok_inj in H. subst out. apply escape_decode; assumption.
Qed.

(** X4: normalize goes through concatenation: when it returns x for a,
    then for a followed by b it returns x followed by what it returns for
    b, and throws when it throws for b. *)
Theorem normalize_app a b x :
  normalize a = Ok x ->
  normalize (a ++ b) = mapOk (app x) (normalize b).
Proof.
  rewrite !normalize_escape.
  destruct (wellFormed a) eqn:Hwf; [|discriminate]. intros H.
  apply Ok_inj in H. subst x.
  destruct (wellFormed_app a b Hwf) as [E1 E2]. rewrite E1, E2.
  destruct (wellFormed b); reflexivity.
Qed.

(** X5: normalize returns a string unchanged exactly when the string is
    made of unreserved characters only; any other string it returns is
    longer than its input. *)
Theorem normalize_fixed_points s :
  (normalize s = Ok s <-> forallb isUnreserved s = true)
  /\ (forall out, normalize s = Ok out ->
        (List.length s <= List.length out)%nat
        /\ (forallb isUnreserved s = false ->
            (List.length s < List.length out)%nat)).
Proof.
  rewrite normalize_escape. split.
  - split.
    + destruct (wellFormed s); [|discriminate]. intros H. apply Ok_inj in H.
      destruct (forallb isUnreserved s) eqn:Hu; [reflexivity|].
      pose proof (proj2 (escape_length s) Hu) as Hlt.
      rewrite H in Hlt. lia.
    + intros Hu. rewrite (unreserved_wellFormed s Hu), (unreserved_escape s Hu).
      reflexivity.
  - intros out. destruct (wellFormed s); [|discriminate]. intros H.
    apply Ok_inj in H. subst out. apply escape_length.
Qed.

(** ** hash *)

Lemma bigEndian_octets width x : Forall (fun o => o < 256) (bigEndian width x).
Proof.
  unfold bigEndian. apply Forall_forall. intros o Hin.
  apply in_map_iff in Hin. destruct Hin as [i [<- _]].
  apply N.mod_lt. lia.
Qed.

Lemma sha256_octets msg : Forall (fun o => o < 256) (sha256 msg).
Proof.
  unfold sha256.
  generalize (fold_left compress
                (blocks (List.length (words32 (pad msg))) (words32 (pad msg)))
                initialHash).
  intros h. apply Forall_flat_map. apply Forall_forall.
  intros x _. apply bigEndian_octets.
Qed.

Lemma hexDigitLower_hex d : d < 16 -> isLowerHex (hexDigitLower d) = true.
Proof.
  intros H. unfold isLowerHex, hexDigitLower. cmp_cases; reflexivity.
Qed.

Lemma hexString_lower octets :
  Forall (fun o => o < 256) octets -> forallb isLowerHex (hexString octets) = true.
Proof.
  induction 1 as [|o l Ho _ IH]; [reflexivity|].
  unfold hexString in *. cbn [flat_map app forallb]. rewrite IH.
  rewrite !hexDigitLower_hex.
  - reflexivity.
  - apply N.mod_lt. lia.
  - apply N.Div0.div_lt_upper_bound. lia.
Qed.

(** X6: whatever the key and the data, the empty ones too, hash returns
    64 characters, each a digit or a letter from a to f: a signing key and
    a signature never hold a slash or a semicolon. *)
Theorem hash_hex_digits key data :
  List.length (hash key data) = 64%nat
  /\ forallb isLowerHex (hash key data) = true
  /\ ~ In 47 (hash key data) /\ ~ In 59 (hash key data).
Proof.
  split; [apply hash_length|].
  assert (H : forallb isLowerHex (hash key data) = true).
  { unfold hash, hmac_sha256. apply hexString_lower, sha256_octets. }
  split; [exact H|]. rewrite forallb_forall in H.
  split; intros Hin; apply H in Hin; discriminate.
Qed.

(** ** The canonicalizers, further *)

Lemma sort_sorted l : StronglySorted str_le l -> sort l = l.
Proof.
  intros H. apply sorted_unique; [apply sort_StronglySorted | exact H|].
  apply Permutation_sym, sort_Permutation.
Qed.

Section SignerFurther.

Variable toLowerCase : jsstring -> jsstring.

Lemma canonicalizeHeaders_signingNames hs options :
  canonicalizeHeaders toLowerCase hs (headerNamesToSign options)
  = canonicalizeHeaders toLowerCase hs (Some (signingNames options)).
Proof. unfold signingNames. destruct (headerNamesToSign options); reflexivity. Qed.

Lemma authorize_headers credentials request options hs1 hs2 :
  canonicalizeHeaders toLowerCase hs1 (headerNamesToSign options)
  = canonicalizeHeaders toLowerCase hs2 (headerNamesToSign options) ->
  authorize toLowerCase credentials (withHeaders request hs1) options
  = authorize toLowerCase credentials (withHeaders request hs2) options.
Proof.
  intros E. unfold authorize, createContext, withHeaders.
  cbn [params headers method url]. rewrite E. reflexivity.
Qed.

Lemma authorize_params credentials request options ps1 ps2 :
  canonicalizeSearchParams toLowerCase ps1
  = canonicalizeSearchParams toLowerCase ps2 ->
  authorize toLowerCase credentials (withParams request ps1) options
  = authorize toLowerCase credentials (withParams request ps2) options.
Proof.
  intros E. unfold authorize, createContext, withParams.
  cbn [params headers method url]. rewrite E. reflexivity.
Qed.

(** X7: a header outside the signing set, one whose trimmed value is
    empty or whose lower-cased name is neither listed nor starts with
    x-bce-, leaves no trace: with or without it, wherever it stands, the
    canonical headers and the token are the same. *)
Theorem unsigned_header_ignored credentials request options hs1 entry hs2 :
  ~ toSign toLowerCase (signingNames options) entry ->
  canonicalizeHeaders toLowerCase (hs1 ++ entry :: hs2) (headerNamesToSign options)
  = canonicalizeHeaders toLowerCase (hs1 ++ hs2) (headerNamesToSign options)
  /\ authorize toLowerCase credentials
       (withHeaders request (hs1 ++ entry :: hs2)) options
     = authorize toLowerCase credentials (withHeaders request (hs1 ++ hs2)) options.
Proof.
  intros Hno.
  assert (E : canonicalizeHeaders toLowerCase (hs1 ++ entry :: hs2)
                (headerNamesToSign options)
              = canonicalizeHeaders toLowerCase (hs1 ++ hs2)
                  (headerNamesToSign options)).
  { rewrite !canonicalizeHeaders_signingNames, !canonicalizeHeaders_entries.
    cbn zeta. rewrite !filter_app. cbn [filter].
    destruct (toSignb toLowerCase (signingNames options) entry) eqn:Hb;
      [|reflexivity].
    apply toSignb_toSign in Hb. contradiction. }
  split; [exact E | apply authorize_headers; exact E].
Qed.

Lemma sameHeader_toSignb names a b :
  sameHeader toLowerCase a b ->
  toSignb toLowerCase names a = toSignb toLowerCase names b
  /\ headerWellFormed toLowerCase a = headerWellFormed toLowerCase b
  /\ headerEntry toLowerCase a = headerEntry toLowerCase b.
Proof.
  intros [Hn Hv]. unfold toSignb, headerWellFormed, headerEntry.
  rewrite Hn, Hv. repeat split.
Qed.

Lemma sameHeader_filter names hs1 hs2 :
  Forall2 (sameHeader toLowerCase) hs1 hs2 ->
  Forall2 (sameHeader toLowerCase)
    (filter (toSignb toLowerCase names) hs1)
    (filter (toSignb toLowerCase names) hs2).
Proof.
  induction 1 as [|a b l1 l2 Hab _ IH]; [constructor|].
  cbn [filter]. destruct (sameHeader_toSignb names a b Hab) as [E _].
  rewrite E. destruct (toSignb toLowerCase names b); [constructor|]; assumption.
Qed.

Lemma sameHeader_entries hs1 hs2 :
  Forall2 (sameHeader toLowerCase) hs1 hs2 ->
  forallb (headerWellFormed toLowerCase) hs1
  = forallb (headerWellFormed toLowerCase) hs2
  /\ List.map (fun e => toLowerCase (fst e)) hs1
     = List.map (fun e => toLowerCase (fst e)) hs2
  /\ List.map (headerEntry toLowerCase) hs1
     = List.map (headerEntry toLowerCase) hs2.
Proof.
  induction 1 as [|a b l1 l2 Hab _ [IH1 [IH2 IH3]]]; [repeat split|].
  destruct (sameHeader_toSignb [] a b Hab) as [_ [E2 E3]].
  destruct Hab as [Hn _].
  cbn [forallb List.map]. rewrite IH1, IH2, IH3, E2, E3, Hn. repeat split.
Qed.

(** X8: the headers enter the signing through their lower-cased names and
    their trimmed values only: two header lists that agree, entry by
    entry, on both give the same signed names, the same canonical headers
    and the same token, whatever the case of the names and the white space
    around the values. *)
Theorem headers_case_and_blanks_ignored credentials request options hs1 hs2 :
  Forall2 (sameHeader toLowerCase) hs1 hs2 ->
  canonicalizeHeaders toLowerCase hs1 (headerNamesToSign options)
  = canonicalizeHeaders toLowerCase hs2 (headerNamesToSign options)
  /\ authorize toLowerCase credentials (withHeaders request hs1) options
     = authorize toLowerCase credentials (withHeaders request hs2) options.
Proof.
  intros H.
  assert (E : canonicalizeHeaders toLowerCase hs1 (headerNamesToSign options)
              = canonicalizeHeaders toLowerCase hs2 (headerNamesToSign options)).
  { rewrite !canonicalizeHeaders_signingNames, !canonicalizeHeaders_entries.
    cbn zeta.
    destruct (sameHeader_entries _ _
                (sameHeader_filter (signingNames options) hs1 hs2 H))
      as [E1 [E2 E3]].
    rewrite E1, E2, E3. reflexivity. }
  split; [exact E | apply authorize_headers; exact E].
Qed.

(** X9: a name of headerNamesToSign is compared as it is with the
    lower-cased header names: a listed name that no header lower-cases to,
    such as one written with a capital, selects nothing, and the result is
    the one of the list without it. *)
Theorem unmatched_name_selects_nothing hs name names :
  (forall entry, In entry hs -> toLowerCase (fst entry) <> name) ->
  canonicalizeHeaders toLowerCase hs (Some (name :: names))
  = canonicalizeHeaders toLowerCase hs (Some names).
Proof.
  intros Hno. rewrite !canonicalizeHeaders_entries. cbn zeta.
  assert (E : filter (toSignb toLowerCase (name :: names)) hs
              = filter (toSignb toLowerCase names) hs).
  { apply filter_ext_in. intros entry Hin. apply eq_true_iff_eq.
    rewrite !toSignb_toSign. unfold toSign. cbn [In].
    specialize (Hno entry Hin). split.
    - intros [Hv [[Hn|Hn]|Hp]]; [congruence | auto | auto].
    - intros [Hv [Hn|Hp]]; auto. }
  rewrite E. reflexivity.
Qed.

(** X10: the keys of the parameters are written as they are, so an equals
    sign and an ampersand in a key pass for separators: one pair whose key
    spells a whole entry, an ampersand and a second key has the canonical
    query string, and so the token, of the two pairs. *)
Theorem key_spelling_an_entry credentials request options k v k' v' :
  wellFormed v = true -> wellFormed v' = true ->
  toLowerCase k <> js "authorization" ->
  toLowerCase k' <> js "authorization" ->
  toLowerCase (k ++ js "=" ++ escape v ++ js "&" ++ k') <> js "authorization" ->
  str_le (queryEntry (k, v)) (queryEntry (k', v')) ->
  canonicalizeSearchParams toLowerCase
    (Some [(k ++ js "=" ++ escape v ++ js "&" ++ k', v')])
  = canonicalizeSearchParams toLowerCase (Some [(k, v); (k', v')])
  /\ authorize toLowerCase credentials
       (withParams request (Some [(k ++ js "=" ++ escape v ++ js "&" ++ k', v')]))
       options
     = authorize toLowerCase credentials
         (withParams request (Some [(k, v); (k', v')])) options.
Proof.
  intros Hv Hv' Hk Hk' HK Hle.
  assert (A : forall key, toLowerCase key <> js "authorization" ->
                          isAuthorization toLowerCase key = false).
  { intros key H. unfold isAuthorization.
    rewrite <- not_true_iff_false, str_eqb_eq. exact H. }
  assert (E : canonicalizeSearchParams toLowerCase
                (Some [(k ++ js "=" ++ escape v ++ js "&" ++ k', v')])
              = canonicalizeSearchParams toLowerCase (Some [(k, v); (k', v')])).
  { rewrite !canonicalizeSearchParams_entries, !keptParams_cons.
    rewrite (A _ Hk), (A _ Hk'), (A _ HK).
    cbn [keptParams filter forallb List.map snd]. rewrite Hv, Hv'.
    cbn [andb]. rewrite !sort_sorted.
    - unfold queryEntry. cbn [join fst snd]. rewrite <- !app_assoc. reflexivity.
    - repeat constructor. exact Hle.
    - repeat constructor. }
  split; [exact E | apply authorize_params; exact E].
Qed.

(** X11: a parameter list that is empty, or whose keys all lower-case to
    authorization, counts as no list at all: the canonical query string is
    empty and the token is the one of the request without params, even
    when a dropped value holds a lone surrogate. *)
Theorem dropped_params_as_absent credentials request options ps :
  Forall (fun kv => toLowerCase (fst kv) = js "authorization") ps ->
  canonicalizeSearchParams toLowerCase (Some ps) = Ok []
  /\ canonicalizeSearchParams toLowerCase (Some ps)
     = canonicalizeSearchParams toLowerCase None
  /\ authorize toLowerCase credentials (withParams request (Some ps)) options
     = authorize toLowerCase credentials (withParams request None) options.
Proof.
  intros H.
  assert (K : keptParams toLowerCase ps = []).
  { induction H as [|[key value] l Hk _ IH]; [reflexivity|].
    rewrite keptParams_cons. unfold isAuthorization. cbn [fst] in Hk.
    rewrite Hk. replace (str_eqb (js "authorization") (js "authorization"))
      with true by (symmetry; apply str_eqb_eq; reflexivity).
    exact IH. }
  assert (E : canonicalizeSearchParams toLowerCase (Some ps) = Ok []).
  { rewrite canonicalizeSearchParams_entries, K. reflexivity. }
  split; [exact E|]. split; [exact E|].
  apply authorize_params. exact E.
Qed.

(** X12: headerNamesToSign is used as a set: two lists with the same
    members, in any order and with any repetition, select the same headers
    and give the same result. *)
Theorem headerNamesToSign_as_set hs names1 names2 :
  (forall name, In name names1 <-> In name names2) ->
  canonicalizeHeaders toLowerCase hs (Some names1)
  = canonicalizeHeaders toLowerCase hs (Some names2).
Proof.
  intros Hset. rewrite !canonicalizeHeaders_entries. cbn zeta.
  assert (E : filter (toSignb toLowerCase names1) hs
              = filter (toSignb toLowerCase names2) hs).
  { apply filter_ext. intros entry. apply eq_true_iff_eq.
    rewrite !toSignb_toSign. unfold toSign. rewrite Hset. reflexivity. }
  rewrite E. reflexivity.
Qed.

End SignerFurther.

(** ** Worked examples, further *)

Lemma normalize_alphabet_mixed :
  forallb isCodeUnit mixed0 = true
  /\ normalize mixed0 = Ok (js "a%20b%C3%A9%E2%82%AC%F0%9F%98%80")
  /\ forallb isSafe (js "a%20b%C3%A9%E2%82%AC%F0%9F%98%80") = true
  /\ Forall (fun c => ~ In c (js "a%20b%C3%A9%E2%82%AC%F0%9F%98%80"))
       [10; 32; 33; 38; 39; 40; 41; 42; 43; 47; 58; 59; 61].
Proof.
  assert (H1 : forallb isCodeUnit mixed0 = true) by reflexivity.
  assert (H2 : normalize mixed0 = Ok (js "a%20b%C3%A9%E2%82%AC%F0%9F%98%80"))
    by (vm_compute; reflexivity).
  split; [exact H1|]. split; [exact H2|].
  exact (normalize_alphabet mixed0 _ H1 H2).
Defined.

Lemma normalize_decodes_to_utf8_mixed :
  forallb isCodeUnit mixed0 = true
  /\ normalize mixed0 = Ok (js "a%20b%C3%A9%E2%82%AC%F0%9F%98%80")
  /\ percentDecode (js "a%20b%C3%A9%E2%82%AC%F0%9F%98%80") = utf8Write mixed0
  /\ utf8Write mixed0 = [97; 32; 98; 195; 169; 226; 130; 172; 240; 159; 152; 128].
Proof.
  assert (H1 : forallb isCodeUnit mixed0 = true) by reflexivity.
  assert (H2 : normalize mixed0 = Ok (js "a%20b%C3%A9%E2%82%AC%F0%9F%98%80"))
    by (vm_compute; reflexivity).
  split; [exact H1|]. split; [exact H2|].
  split; [exact (normalize_decodes_to_utf8 mixed0 _ H1 H2) | reflexivity].
Defined.

Lemma normalize_app_accent :
  normalize (js "a b") = Ok (js "a%20b")
  /\ normalize (js "a b" ++ [233; 33])
     = mapOk (app (js "a%20b")) (normalize [233; 33])
  /\ normalize (js "a b" ++ [233; 33]) = Ok (js "a%20b%C3%A9%21").
Proof.
  assert (H : normalize (js "a b") = Ok (js "a%20b")) by reflexivity.
  split; [exact H|].
  split; [exact (normalize_app (js "a b") [233; 33] _ H) | reflexivity].
Defined.

Lemma unsigned_header_ignored_accept :
  ~ toSign toLowerCaseASCII (signingNames options0) (js "Accept", js "text/plain")
  /\ canonicalizeHeaders toLowerCaseASCII
       ([(js "Host", js "bj.bcebos.com")] ++ (js "Accept", js "text/plain") :: [])
       (headerNamesToSign options0)
     = canonicalizeHeaders toLowerCaseASCII ([(js "Host", js "bj.bcebos.com")] ++ [])
         (headerNamesToSign options0)
  /\ authorize toLowerCaseASCII credentials0
       (withHeaders request0
          ([(js "Host", js "bj.bcebos.com")] ++ (js "Accept", js "text/plain") :: []))
       options0
     = authorize toLowerCaseASCII credentials0
         (withHeaders request0 ([(js "Host", js "bj.bcebos.com")] ++ [])) options0.
Proof.
  assert (H : ~ toSign toLowerCaseASCII (signingNames options0)
                (js "Accept", js "text/plain")).
  { intros H. apply toSignb_toSign in H. vm_compute in H. discriminate H. }
  split; [exact H|].
  exact (unsigned_header_ignored toLowerCaseASCII credentials0 request0 options0
           [(js "Host", js "bj.bcebos.com")] (js "Accept", js "text/plain") [] H).
Defined.

Lemma headers_case_and_blanks_ignored_host :
  Forall2 (sameHeader toLowerCaseASCII)
    [(js "HOST", js "  bj.bcebos.com ")] [(js "host", js "bj.bcebos.com")]
  /\ canonicalizeHeaders toLowerCaseASCII [(js "HOST", js "  bj.bcebos.com ")]
       (headerNamesToSign options0)
     = canonicalizeHeaders toLowerCaseASCII [(js "host", js "bj.bcebos.com")]
         (headerNamesToSign options0)
  /\ authorize toLowerCaseASCII credentials0
       (withHeaders request0 [(js "HOST", js "  bj.bcebos.com ")]) options0
     = authorize toLowerCaseASCII credentials0
         (withHeaders request0 [(js "host", js "bj.bcebos.com")]) options0.
Proof.
  assert (H : Forall2 (sameHeader toLowerCaseASCII)
                [(js "HOST", js "  bj.bcebos.com ")]
                [(js "host", js "bj.bcebos.com")]).
  { constructor; [split; reflexivity | constructor]. }
  split; [exact H|].
  exact (headers_case_and_blanks_ignored toLowerCaseASCII credentials0 request0
           options0 _ _ H).
Defined.

Lemma unmatched_name_selects_nothing_capital :
  (forall entry, In entry headersAB -> toLowerCaseASCII (fst entry) <> js "Host")
  /\ canonicalizeHeaders toLowerCaseASCII headersAB (Some [js "Host"])
     = canonicalizeHeaders toLowerCaseASCII headersAB (Some [])
  /\ mapOk res_signedHeaderNames
       (canonicalizeHeaders toLowerCaseASCII headersAB (Some [js "Host"]))
     = Ok [js "x-bce-date"].
Proof.
  assert (H : forall entry, In entry headersAB ->
                            toLowerCaseASCII (fst entry) <> js "Host").
  { intros entry [<-|[<-|[]]]; vm_compute; discriminate. }
  split; [exact H|].
  split; [exact (unmatched_name_selects_nothing toLowerCaseASCII headersAB
                   (js "Host") [] H)|].
  vm_compute. reflexivity.
Defined.

Lemma key_spelling_an_entry_ab :
  (wellFormed (js "1") = true /\ wellFormed (js "2") = true
   /\ toLowerCaseASCII (js "a") <> js "authorization"
   /\ toLowerCaseASCII (js "b") <> js "authorization"
   /\ toLowerCaseASCII (js "a" ++ js "=" ++ escape (js "1") ++ js "&" ++ js "b")
      <> js "authorization"
   /\ str_le (queryEntry (js "a", js "1")) (queryEntry (js "b", js "2")))
  /\ js "a" ++ js "=" ++ escape (js "1") ++ js "&" ++ js "b" = js "a=1&b"
  /\ canonicalizeSearchParams toLowerCaseASCII (Some [(js "a=1&b", js "2")])
     = Ok (js "a=1&b=2")
  /\ canonicalizeSearchParams toLowerCaseASCII
       (Some [(js "a" ++ js "=" ++ escape (js "1") ++ js "&" ++ js "b", js "2")])
     = canonicalizeSearchParams toLowerCaseASCII
         (Some [(js "a", js "1"); (js "b", js "2")])
  /\ authorize toLowerCaseASCII credentials0
       (withParams request0
          (Some [(js "a" ++ js "=" ++ escape (js "1") ++ js "&" ++ js "b", js "2")]))
       options0
     = authorize toLowerCaseASCII credentials0
         (withParams request0 (Some [(js "a", js "1"); (js "b", js "2")])) options0.
Proof.
  assert (H1 : wellFormed (js "1") = true) by reflexivity.
  assert (H2 : wellFormed (js "2") = true) by reflexivity.
  assert (H3 : toLowerCaseASCII (js "a") <> js "authorization")
    by (vm_compute; discriminate).
  assert (H4 : toLowerCaseASCII (js "b") <> js "authorization")
    by (vm_compute; discriminate).
  assert (H5 : toLowerCaseASCII
                 (js "a" ++ js "=" ++ escape (js "1") ++ js "&" ++ js "b")
               <> js "authorization") by (vm_compute; discriminate).
  assert (H6 : str_le (queryEntry (js "a", js "1")) (queryEntry (js "b", js "2")))
    by reflexivity.
  split; [repeat split; assumption|].
  split; [reflexivity|]. split; [vm_compute; reflexivity|].
  exact (key_spelling_an_entry toLowerCaseASCII credentials0 request0 options0
           (js "a") (js "1") (js "b") (js "2") H1 H2 H3 H4 H5 H6).
Defined.

Lemma dropped_params_as_absent_surrogate :
  Forall (fun kv => toLowerCaseASCII (fst kv) = js "authorization")
    [(js "Authorization", [55357]); (js "AUTHORIZATION", js "x")]
  /\ canonicalizeSearchParams toLowerCaseASCII
       (Some [(js "Authorization", [55357]); (js "AUTHORIZATION", js "x")]) = Ok []
  /\ canonicalizeSearchParams toLowerCaseASCII
       (Some [(js "Authorization", [55357]); (js "AUTHORIZATION", js "x")])
     = canonicalizeSearchParams toLowerCaseASCII None
  /\ authorize toLowerCaseASCII credentials0
       (withParams request0
          (Some [(js "Authorization", [55357]); (js "AUTHORIZATION", js "x")]))
       options0
     = authorize toLowerCaseASCII credentials0 (withParams request0 None) options0.
Proof.
  assert (H : Forall (fun kv => toLowerCaseASCII (fst kv) = js "authorization")
                [(js "Authorization", [55357]); (js "AUTHORIZATION", js "x")])
    by (repeat constructor).
  split; [exact H|].
  exact (dropped_params_as_absent toLowerCaseASCII credentials0 request0 options0
           _ H).
Defined.

Lemma headerNamesToSign_as_set_repeated :
  (forall name,
     In name [js "host"; js "content-type"; js "host"]
     <-> In name [js "content-type"; js "host"])
  /\ canonicalizeHeaders toLowerCaseASCII headersAB
       (Some [js "host"; js "content-type"; js "host"])
     = canonicalizeHeaders toLowerCaseASCII headersAB
         (Some [js "content-type"; js "host"]).
Proof.
  assert (H : forall name,
             In name [js "host"; js "content-type"; js "host"]
             <-> In name [js "content-type"; js "host"]).
  { intros name. cbn [In]. tauto. }
  split; [exact H|].
  exact (headerNamesToSign_as_set toLowerCaseASCII headersAB _ _ H).
Defined.
